(** * hashstats: the HyperLogLog update, the replay guard and the ingest
      pipeline of the anonymous statistics server

    The definitions below embed the JavaScript of the repository
    (the drafts of [server.js]).  BigInt values are [Z]; a [Uint8Array] is
    a [list byte]; the register array of a HyperLogLog object is a list of
    JavaScript numbers; the [usedNonces] [Map] is a [gmap]; the estimates
    returned by [count()] are taken as exact rationals. *)

From Stdlib Require Import ZArith QArith Qround Lia.
From Stdlib Require Import Strings.String Strings.Ascii Strings.Byte.
From stdpp Require Import base option list gmap strings.

Local Open Scope Z_scope.

(** ** JavaScript numbers held in an array *)

(** A slot of a JavaScript array of integers: a number, [NaN], or a hole
    (reading a hole yields [undefined]). *)
Inductive jsnum : Type :=
  | Num (z : Z)
  | NaN
  | Undefined.

Global Instance byte_eq_dec : EqDecision byte := Byte.byte_eq_dec.

Global Instance jsnum_eq_dec : EqDecision jsnum.
Proof. solve_decision. Defined.

(** [Math.max(a, b)]: [undefined] converts to [NaN], and [NaN] is
    absorbing. *)
Definition Math_max (a b : jsnum) : jsnum :=
  match a, b with
  | Num x, Num y => Num (Z.max x y)
  | _, _ => NaN
  end.

(** [arr[i]] *)
Definition js_get (arr : list jsnum) (i : Z) : jsnum :=
  if i <? 0 then Undefined else default Undefined (arr !! Z.to_nat i).

(** [arr[i] = x] for an array index [i], that is [0 <= i < 2^32 - 1]:
    inside the array the slot is replaced; past the end the array grows,
    the slots in between being holes.  (A larger [i] is no array index in
    JavaScript: the assignment would set a property and not grow the
    array.  The register index is below [2^31] whenever the index field
    has at most 31 bits.) *)
Definition js_set (arr : list jsnum) (i : Z) (x : jsnum) : list jsnum :=
  if (Z.to_nat i <? length arr)%nat then <[Z.to_nat i := x]> arr
  else arr ++ replicate (Z.to_nat i - length arr)%nat Undefined ++ [x].

(** ** Strings of binary digits *)

(** Binary digits of a positive BigInt, most significant first. *)
Fixpoint pos_digits (p : positive) (acc : string) : string :=
  match p with
  | xH => String "1" acc
  | xO q => pos_digits q (String "0" acc)
  | xI q => pos_digits q (String "1" acc)
  end.

(** [z.toString(2)] *)
Definition toString2 (z : Z) : string :=
  match z with
  | Z0 => "0"
  | Zpos p => pos_digits p ""
  | Zneg p => String "-" (pos_digits p "")
  end.

(** [n] characters ['0'] put in front of [s]. *)
Fixpoint pad_zeros (n : nat) (s : string) : string :=
  match n with
  | O => s
  | S m => String "0" (pad_zeros m s)
  end.

(** [s.padStart(target, '0')] *)
Definition padStart (target : Z) (s : string) : string :=
  pad_zeros (Z.to_nat (target - Z.of_nat (String.length s))) s.

Fixpoint indexOf_from (c : ascii) (s : string) (i : Z) : Z :=
  match s with
  | EmptyString => -1
  | String d rest => if Ascii.eqb d c then i else indexOf_from c rest (i + 1)
  end.

(** [s.indexOf(c)] for a one-character [c] *)
Definition indexOf (c : ascii) (s : string) : Z := indexOf_from c s 0.

(** ** The HyperLogLog object of the bloom-filters package *)

(** The two private fields that [customHllUpdate] reaches into, and the
    register count. *)
Record HLL : Type := mkHLL {
  _nbRegisters : Z;
  _nbBytesPerHash : Z;
  _registers : list jsnum
}.

Global Instance HLL_eq_dec : EqDecision HLL.
Proof. solve_decision. Defined.

Definition set_registers (h : HLL) (r : list jsnum) : HLL :=
  mkHLL (_nbRegisters h) (_nbBytesPerHash h) r.

(** Modelled from the spec: the constructor [new HyperLogLog(m)] of the
    bloom-filters package is not part of the sources.  The data model has a
    register array of length [m], a power of two, created with all
    registers zero, and an index field of [log2(m)] bits. *)
Definition HyperLogLog_new (m : Z) : HLL :=
  mkHLL m (Z.log2 m) (replicate (Z.to_nat m) (Num 0)).

Definition HLL_REGISTERS : Z := 1024.

(** Modelled from the spec: the method [merge] of the bloom-filters package
    is not part of the sources.  It requires the same register count and fails
    loudly otherwise ([None]); the result holds the pointwise maximum of the
    two register arrays. *)
Definition hll_merge (a b : HLL) : option HLL :=
  if _nbRegisters a =? _nbRegisters b
  then Some (set_registers a (zip_with Math_max (_registers a) (_registers b)))
  else None.

(** ** Library functions the server calls *)

(** The hash, the signature scheme, the encodings, the Bloom filter and the
    estimate formula come from npm packages; they are the parameters of the
    development.  A [None] result stands for a thrown exception. *)
Class Library : Type := {
  Bloom : Type;
  bloom_new : Bloom;
  bloom_has : Bloom -> string -> bool;
  bloom_add : Bloom -> string -> Bloom;
  blake3 : list byte -> list byte;
  blake3_length : forall b, length (blake3 b) = 32%nat;
  bytesToHex : list byte -> string;
  bech32_decode : string -> option (list Z);
  bech32_fromWords : list Z -> option (list byte);
  ed25519_verify : list byte -> list byte -> list byte -> option bool;
  parseInt : string -> option Z;
  count : HLL -> Q;
  getWeekKey : string -> string;
  getMonthKey : string -> string
}.

(** [utf8ToBytes]: a [string] is taken as its sequence of UTF-8 bytes. *)
Definition utf8ToBytes (s : string) : list byte := list_byte_of_string s.

Definition byte_to_Z (b : byte) : Z := Z.of_N (Byte.to_N b).

(** An element handed to [customHllUpdate]: a string or a byte array. *)
Inductive element : Type :=
  | EStr (s : string)
  | EBytes (b : list byte).

(** ** customHllUpdate *)

(** The loop [for (let i = 0; i < 8; i++) v = (v << 8n) | BigInt(bytes[i])]
    with [n] iterations left; [BigInt(undefined)] throws. *)
Fixpoint hash_loop (n : nat) (i : nat) (bytes : list byte) (v : Z) : option Z :=
  match n with
  | O => Some v
  | S n' =>
      match bytes !! i with
      | None => None
      | Some b => hash_loop n' (S i) bytes (Z.lor (Z.shiftl v 8) (byte_to_Z b))
      end
  end.

Definition hashTo64BigInt (bytes : list byte) : option Z :=
  hash_loop 8 0 bytes 0.

(** The register index [Number(v & mask)].  The conversion is exact and the
    result is an array index as long as the index field has at most 31
    bits. *)
Definition registerIndex (nbBits v : Z) : Z :=
  Z.land v (Z.shiftl 1 nbBits - 1).

(** The rank [rho] computed from the bits above the index field. *)
Definition rho (nbBits v : Z) : Z :=
  let second := Z.shiftr v nbBits in
  let k := 64 - nbBits in
  let secondBin := padStart k (toString2 second) in
  let idx := indexOf "1" secondBin in
  if idx =? -1 then k else idx + 1.

Definition element_bytes (e : element) : list byte :=
  match e with
  | EStr s => utf8ToBytes s
  | EBytes b => b
  end.

Definition customHllUpdate `{lib : Library} (hll : HLL) (e : element) : option HLL :=
  let bytes := element_bytes e in
  let digest := blake3 bytes in
  match hashTo64BigInt digest with
  | None => None
  | Some v =>
      let nbBits := _nbBytesPerHash hll in
      let i := registerIndex nbBits v in
      let r := rho nbBits v in
      Some (set_registers hll
              (js_set (_registers hll) i
                 (Math_max (js_get (_registers hll) i) (Num r))))
  end.

(** ** The server state *)

Definition NONCE_WINDOW_MS : Z := 60000.

(** The body of a POST /ingest request.  The documented fields are JSON
    strings; [None] is an absent field. *)
Record Request : Type := mkRequest {
  publicKey : option string;
  timestamp : option string;
  nonce : option string;
  signature : option string
}.

(** JavaScript truthiness of a field: absent and empty are falsy. *)
Definition truthy (f : option string) : bool :=
  match f with
  | Some s => negb (String.eqb s "")
  | None => false
  end.

Definition field (f : option string) : string := default EmptyString f.

(** [!publicKey || !timestamp || !nonce || !signature] *)
Definition missing (req : Request) : bool :=
  negb (truthy (publicKey req)) || negb (truthy (timestamp req))
  || negb (truthy (nonce req)) || negb (truthy (signature req)).

(** The template literal [`${timestamp}:${nonce}`] *)
Definition message_of (req : Request) : string :=
  String.append (field (timestamp req)) (String ":" (field (nonce req))).

Inductive Response : Type :=
  | Rejected (status : Z) (error : string)
  | Accepted (date : string) (newUser : bool) (dau : Q).

(** The statements of the handler whose execution is recorded. *)
Inductive Step : Type :=
  | ChkFields | ChkTimestamp | ChkNonce | ChkSignature
  | MarkNonce | TestNew | AddBloom | UpdateAll | UpdateDaily | UpdateNew
  | SaveDaily | SaveAll | SaveBloom | Schedule.

Global Instance Step_eq_dec : EqDecision Step.
Proof. solve_decision. Defined.

(** How a statement of the handler ends: it falls through with a value, it
    returns the response, or it throws. *)
Inductive Outcome (A : Type) : Type :=
  | Next (a : A)
  | Reply (r : Response)
  | Throw.
Arguments Next {A} a.
Arguments Reply {A} r.
Arguments Throw {A}.

Section Server.
Context `{lib : Library}.

(** What [getDailyData] returns. *)
Record DailyData : Type := mkDailyData {
  hll : HLL;
  newUsersHll : HLL
}.

(** The JSON kept in [data/daily/<date>.hll.json]; the serialisation of the
    package is taken to round-trip. *)
Record DailyFile : Type := mkDailyFile {
  file_hll : HLL;
  file_newUsersHll : option HLL
}.

Record Disk : Type := mkDisk {
  daily : gmap string DailyFile;
  all_hll_json : option HLL;
  all_bf_json : option Bloom;
  weekly : gmap string HLL;
  monthly : gmap string HLL
}.

(** The process memory ([usedNonces], [allHLL], [allBloom]), the files and
    the callbacks queued with [setImmediate]. *)
Record Store : Type := mkStore {
  usedNonces : gmap string Z;
  allHLL : HLL;
  allBloom : Bloom;
  disk : Disk;
  immediates : list string
}.

Definition set_usedNonces (m : gmap string Z) (s : Store) : Store :=
  mkStore m (allHLL s) (allBloom s) (disk s) (immediates s).
Definition set_allHLL (h : HLL) (s : Store) : Store :=
  mkStore (usedNonces s) h (allBloom s) (disk s) (immediates s).
Definition set_allBloom (b : Bloom) (s : Store) : Store :=
  mkStore (usedNonces s) (allHLL s) b (disk s) (immediates s).
Definition set_disk (d : Disk) (s : Store) : Store :=
  mkStore (usedNonces s) (allHLL s) (allBloom s) d (immediates s).
Definition setImmediate (task : string) (s : Store) : Store :=
  mkStore (usedNonces s) (allHLL s) (allBloom s) (disk s) (immediates s ++ [task]).

(** *** A monad for the handler: state, early reply, exceptions, and the
    list of statements run *)

Definition M (A : Type) : Type := Store -> Outcome A * Store * list Step.

Definition ret {A} (a : A) : M A := fun s => (Next a, s, []).

Definition bind {A B} (m : M A) (f : A -> M B) : M B := fun s =>
  match m s with
  | (Next a, s1, t1) =>
      match f a s1 with (o, s2, t2) => (o, s2, t1 ++ t2) end
  | (Reply r, s1, t1) => (Reply r, s1, t1)
  | (Throw, s1, t1) => (Throw, s1, t1)
  end.

Definition tick (st : Step) : M unit := fun s => (Next tt, s, [st]).
Definition gets {A} (f : Store -> A) : M A := fun s => (Next (f s), s, []).
Definition modify (f : Store -> Store) : M unit := fun s => (Next tt, f s, []).
Definition reply {A} (r : Response) : M A := fun s => (Reply r, s, []).
Definition lift {A} (o : option A) : M A := fun s =>
  match o with
  | Some a => (Next a, s, [])
  | None => (Throw, s, [])
  end.

(** [try { body } catch (err) { handler }] *)
Definition try_catch {A} (body handler : M A) : M A := fun s =>
  match body s with
  | (Throw, s1, t1) =>
      match handler s1 with (o, s2, t2) => (o, s2, t1 ++ t2) end
  | r => r
  end.

End Server.

Notation "x <~ m ;; k" := (bind m (fun x => k))
  (at level 62, m at next level, right associativity).
Notation "m ;;; k" := (bind m (fun _ => k))
  (at level 62, right associativity).

Section Handlers.
Context `{lib : Library}.

(** ** verifySignature

    The body runs inside [try]; the [catch] branch returns [false] (it also
    prints the error on the console, which is outside the state modelled
    here). *)
Definition verifySignature (message sig pk : string) : M bool :=
  try_catch
    (sigDecoded <~ lift (bech32_decode sig) ;;
     pkDecoded <~ lift (bech32_decode pk) ;;
     sigBytes <~ lift (bech32_fromWords sigDecoded) ;;
     pkBytes <~ lift (bech32_fromWords pkDecoded) ;;
     let messageBytes := utf8ToBytes message in
     lift (ed25519_verify sigBytes messageBytes pkBytes))
    (ret false).

(** What the call prints: the [catch] branch of [verifySignature] runs
    [console.error('Signature verification error:', err)], one line, given
    here by its label; the [try] branch prints nothing. *)
Definition verifySignature_console (message sig pk : string) (s : Store)
    : list string :=
  match
    (sigDecoded <~ lift (bech32_decode sig) ;;
     pkDecoded <~ lift (bech32_decode pk) ;;
     sigBytes <~ lift (bech32_fromWords sigDecoded) ;;
     pkBytes <~ lift (bech32_fromWords pkDecoded) ;;
     let messageBytes := utf8ToBytes message in
     lift (ed25519_verify sigBytes messageBytes pkBytes)) s
  with
  | (Throw, _, _) => ["Signature verification error:"%string]
  | _ => []
  end.

(** ** Files *)

Definition getDailyData (dateKey : string) (d : Disk) : DailyData :=
  match daily d !! dateKey with
  | Some f =>
      mkDailyData (file_hll f)
        (default (HyperLogLog_new HLL_REGISTERS) (file_newUsersHll f))
  | None =>
      mkDailyData (HyperLogLog_new HLL_REGISTERS) (HyperLogLog_new HLL_REGISTERS)
  end.

Definition saveDailyData (dateKey : string) (data : DailyData) (d : Disk) : Disk :=
  mkDisk (<[dateKey := mkDailyFile (hll data) (Some (newUsersHll data))]> (daily d))
    (all_hll_json d) (all_bf_json d) (weekly d) (monthly d).

Definition save_all_hll (h : HLL) (d : Disk) : Disk :=
  mkDisk (daily d) (Some h) (all_bf_json d) (weekly d) (monthly d).

Definition save_all_bf (b : Bloom) (d : Disk) : Disk :=
  mkDisk (daily d) (all_hll_json d) (Some b) (weekly d) (monthly d).

Definition loadHLL (o : option HLL) : HLL :=
  default (HyperLogLog_new HLL_REGISTERS) o.

(** [updateAggregates], run from the [setImmediate] queue.  The calls
    [weekHLL.merge(...)] and [monthHLL.merge(...)] are statements: [merge]
    gives its result as a new estimator, which is dropped here, and the
    estimator that was loaded is the one saved.  A [merge] that throws ends
    the function ([None]). *)
Definition updateAggregates (dateKey : string) (d : Disk) : option Disk :=
  let weekKey := getWeekKey dateKey in
  let monthKey := getMonthKey dateKey in
  let dailyData := getDailyData dateKey d in
  let weekHLL := loadHLL (weekly d !! weekKey) in
  match hll_merge weekHLL (hll dailyData) with
  | None => None
  | Some _ =>
      let d1 := mkDisk (daily d) (all_hll_json d) (all_bf_json d)
                  (<[weekKey := weekHLL]> (weekly d)) (monthly d) in
      let monthHLL := loadHLL (monthly d1 !! monthKey) in
      match hll_merge monthHLL (hll dailyData) with
      | None => None
      | Some _ =>
          Some (mkDisk (daily d1) (all_hll_json d1) (all_bf_json d1)
                  (weekly d1) (<[monthKey := monthHLL]> (monthly d1)))
      end
  end.

(** ** The replay guard *)

(** [usedNonces.has(nonce)] *)
Definition has (m : gmap string Z) (n : string) : bool :=
  bool_decide (is_Some (m !! n)).

(** The interval callback at time [now]: every entry with
    [now - timestamp > NONCE_WINDOW_MS] is deleted. *)
Definition sweep (now : Z) (m : gmap string Z) : gmap string Z :=
  map_fold (fun n ts acc => if now - ts >? NONCE_WINDOW_MS then delete n acc else acc)
    m m.

(** ** POST /ingest *)

(** [Math.abs(now - msgTime) > NONCE_WINDOW_MS]; the comparison is false
    when [parseInt] gave [NaN]. *)
Definition stale (now : Z) (msgTime : option Z) : bool :=
  match msgTime with
  | Some t => Z.abs (now - t) >? NONCE_WINDOW_MS
  | None => false
  end.

Definition userHashOf (pk : string) : string :=
  bytesToHex (blake3 (utf8ToBytes pk)).

(** The body of the handler; [now] is the value of [Date.now()] and
    [dateKey] that of [getDateKey()]. *)
Definition ingest (now : Z) (dateKey : string) (req : Request) : M Response :=
  tick ChkFields ;;;
  if missing req
  then reply (Rejected 400 "Missing required fields")
  else
  let pk := field (publicKey req) in
  let ts := field (timestamp req) in
  let n := field (nonce req) in
  let sg := field (signature req) in
  tick ChkTimestamp ;;;
  if stale now (parseInt ts)
  then reply (Rejected 400 "Timestamp too old or in future")
  else
  tick ChkNonce ;;;
  used <~ gets usedNonces ;;
  if has used n
  then reply (Rejected 400 "Nonce already used (replay attack?)")
  else
  tick ChkSignature ;;;
  valid <~ verifySignature (message_of req) sg pk ;;
  if negb valid
  then reply (Rejected 401 "Invalid signature")
  else
  tick MarkNonce ;;;
  modify (fun s => set_usedNonces (<[n := now]> (usedNonces s)) s) ;;;
  let userHash := userHashOf pk in
  dailyData <~ gets (fun s => getDailyData dateKey (disk s)) ;;
  tick TestNew ;;;
  isNewUser <~ gets (fun s => negb (bloom_has (allBloom s) userHash)) ;;
  tick AddBloom ;;;
  modify (fun s => set_allBloom (bloom_add (allBloom s) userHash) s) ;;;
  tick UpdateAll ;;;
  all <~ gets allHLL ;;
  all' <~ lift (customHllUpdate all (EStr userHash)) ;;
  modify (set_allHLL all') ;;;
  tick UpdateDaily ;;;
  dayHll <~ lift (customHllUpdate (hll dailyData) (EStr userHash)) ;;
  newHll <~ (if isNewUser
             then tick UpdateNew ;;;
                  lift (customHllUpdate (newUsersHll dailyData) (EStr userHash))
             else ret (newUsersHll dailyData)) ;;
  let dailyData' := mkDailyData dayHll newHll in
  tick SaveDaily ;;;
  modify (fun s => set_disk (saveDailyData dateKey dailyData' (disk s)) s) ;;;
  tick SaveAll ;;;
  modify (fun s => set_disk (save_all_hll (allHLL s) (disk s)) s) ;;;
  tick SaveBloom ;;;
  modify (fun s => set_disk (save_all_bf (allBloom s) (disk s)) s) ;;;
  tick Schedule ;;;
  modify (setImmediate dateKey) ;;;
  ret (Accepted dateKey isNewUser (count dayHll)).

(** The handler with its outer [try]/[catch]: an exception becomes the
    response 500. *)
Definition post_ingest (now : Z) (dateKey : string) (req : Request)
    (s : Store) : Response * Store * list Step :=
  match ingest now dateKey req s with
  | (Next r, s', t) => (r, s', t)
  | (Reply r, s', t) => (r, s', t)
  | (Throw, s', t) => (Rejected 500 "internal", s', t)
  end.

End Handlers.

(** ** GET /api/stats: retention *)

Record RetentionRecord : Type := mkRetentionRecord {
  cohortDate : string;
  returnDate : string;
  cohortSize : Z;
  returnedUsers : Z;
  retentionRate : Q
}.

Record Retention (R : Type) : Type := mkRetention {
  d1 : option R;
  d7 : option R;
  d30 : option R
}.
Arguments mkRetention {R} _ _ _.
Arguments d1 {R} _.
Arguments d7 {R} _.
Arguments d30 {R} _.

(** [Math.round] on an exact value: the nearest integer, halves upwards. *)
Definition Math_round (q : Q) : Z := Qfloor (q + (1 # 2))%Q.

(** [Math.max] on two exact values. *)
Definition Math_max_Q (a b : Q) : Q := if Qle_bool a b then b else a.

(** [a > b] on two exact values. *)
Definition Qgtb (a b : Q) : bool := negb (Qle_bool a b).

(** [files[i]] *)
Definition js_nth (files : list string) (i : Z) : option string :=
  if i <? 0 then None else files !! Z.to_nat i.

Section Stats.
Context `{lib : Library}.

(** [calcRetention] of the stats handler.  [files] is the sorted, reversed
    listing of [data/daily], each name without its [.hll.json] suffix.  The
    outer [None] is an exception ([merge] on unequal register counts; a name
    read past the listing), the inner [None] is [null].  The two calls
    [unionHLL.merge(...)] are statements: [merge] gives its result as a new
    estimator, which is dropped, and [unionHLL.count()] afterwards reads
    the estimator made by [new HyperLogLog(HLL_REGISTERS)]. *)
Definition calcRetention (files : list string) (d : Disk)
    (cohortIdx returnIdx : Z) : option (option RetentionRecord) :=
  if Z.of_nat (length files) <=? Z.max cohortIdx returnIdx then Some None
  else
    match js_nth files cohortIdx, js_nth files returnIdx with
    | Some cohortDate, Some returnDate =>
        let cohortData := getDailyData cohortDate d in
        let returnData := getDailyData returnDate d in
        let cohortSize := count (hll cohortData) in
        let returnSize := count (hll returnData) in
        let unionHLL := HyperLogLog_new HLL_REGISTERS in
        match hll_merge unionHLL (hll cohortData) with
        | None => None
        | Some _ =>
            match hll_merge unionHLL (hll returnData) with
            | None => None
            | Some _ =>
                let unionSize := count unionHLL in
                let retained :=
                  Math_max_Q 0%Q (cohortSize + returnSize - unionSize)%Q in
                let rate :=
                  if Qgtb cohortSize 0%Q
                  then (retained / cohortSize * 100)%Q else 0%Q in
                Some (Some (mkRetentionRecord cohortDate returnDate
                              (Math_round cohortSize)
                              (Math_round retained)
                              (inject_Z (Math_round (rate * 100)%Q) / 100)%Q))
            end
        end
    | _, _ => None
    end.

(** The [retention] object of the stats response. *)
Definition retention (files : list string) (d : Disk)
    : option (Retention RetentionRecord) :=
  let len := Z.of_nat (length files) in
  e1 ← (if 2 <=? len then calcRetention files d 1 0 else Some None);
  e7 ← (if 2 <=? len then calcRetention files d (Z.min 7 (len - 1)) 0
        else Some None);
  e30 ← (if 2 <=? len then calcRetention files d (Z.min 30 (len - 1)) 0
         else Some None);
  Some (mkRetention e1 e7 e30).

(** *** The draft that keeps a Bloom filter and a counter per day *)

Record CountedDay : Type := mkCountedDay {
  day_hll : HLL;
  day_bloom : Bloom;
  day_count : Z
}.

Record CohortRecord : Type := mkCohortRecord {
  cohort_date : string;
  cohort_size : Z;
  cohort_returnDate : string;
  cohort_returnedUsers : option Z
}.

(** [calculateRetentionRate]: a file that cannot be read throws, and the
    [catch] branch returns [null]. *)
Definition calculateRetentionRate (d : gmap string CountedDay)
    (cohortFile returnFile : string) : option CohortRecord :=
  match d !! cohortFile, d !! returnFile with
  | Some cohortData, Some _ =>
      Some (mkCohortRecord cohortFile (day_count cohortData) returnFile None)
  | _, _ => None
  end.

Definition calculateRetention (files : list string) (d : gmap string CountedDay)
    : Retention CohortRecord :=
  let len := Z.of_nat (length files) in
  let at_ i := field (js_nth files i) in
  mkRetention
    (if 2 <=? len then calculateRetentionRate d (at_ 1) (at_ 0) else None)
    (if 8 <=? len then calculateRetentionRate d (at_ 7) (at_ 0) else None)
    (if 31 <=? len then calculateRetentionRate d (at_ 30) (at_ 0) else None).

End Stats.

(** ** Runs of the server *)

(** What happens to the process between two requests of interest: the
    interval callback fires, or a request is handled. *)
Inductive Event : Type :=
  | EvSweep (now : Z)
  | EvIngest (now : Z) (dateKey : string) (req : Request).

Section Runs.
Context `{lib : Library}.

Definition step_event (s : Store) (e : Event) : Store :=
  match e with
  | EvSweep now => set_usedNonces (sweep now (usedNonces s)) s
  | EvIngest now dateKey req => (post_ingest now dateKey req s).1.2
  end.

Definition run_events (evs : list Event) (s : Store) : Store :=
  foldl step_event s evs.

End Runs.

(** ** The behaviour worded by the specification, for comparison *)

(** Position of the least-significant set bit. *)
Fixpoint lowest_set_bit (p : positive) : Z :=
  match p with
  | xO q => 1 + lowest_set_bit q
  | _ => 0
  end.

(** Rank as worded: one plus the position of the least-significant set bit
    of the remainder field, or the width of the field when it is zero. *)
Definition rank_lsb (nbBits v : Z) : Z :=
  match Z.shiftr v nbBits with
  | Zpos p => 1 + lowest_set_bit p
  | _ => 64 - nbBits
  end.

(** Replay guard as worded: a nonce that is present and not yet expired is
    refused and nothing changes; otherwise the pair is recorded. *)
Definition accept_worded (window : Z) (guard : gmap string Z)
    (n : string) (nowMillis : Z) : bool * gmap string Z :=
  match guard !! n with
  | Some firstSeen =>
      if nowMillis - firstSeen >? window
      then (true, <[n := nowMillis]> guard)
      else (false, guard)
  | None => (true, <[n := nowMillis]> guard)
  end.

(** The update as worded: the register takes the maximum of its value and
    the rank counted from the least-significant end of the remainder. *)
Definition add_worded `{lib : Library} (h : HLL) (e : element) : option HLL :=
  match hashTo64BigInt (blake3 (element_bytes e)) with
  | None => None
  | Some v =>
      let nbBits := _nbBytesPerHash h in
      let i := registerIndex nbBits v in
      Some (set_registers h
              (js_set (_registers h) i
                 (Math_max (js_get (_registers h) i) (Num (rank_lsb nbBits v)))))
  end.

(** ** Predicates used in the statements *)

(** Number of zero bits above the most-significant set bit of [r > 0] in a
    field of [k] bits. *)
Definition leading_zeros (k r : Z) : Z := k - 1 - Z.log2 r.

(** A register holds a number between 0 and [maxRank]. *)
Definition reg_ok (maxRank : Z) (r : jsnum) : bool :=
  match r with
  | Num z => (0 <=? z) && (z <=? maxRank)
  | _ => false
  end.

(** An estimator of [m] registers in the shape the constructor gives it:
    [m] slots, an index field of [log2 m] bits, ranks within the width of
    the remainder field. *)
Definition hll_ok (m : Z) (h : HLL) : bool :=
  (_nbRegisters h =? m) && (_nbBytesPerHash h =? Z.log2 m)
  && (Z.of_nat (length (_registers h)) =? m)
  && forallb (reg_ok (64 - Z.log2 m)) (_registers h).

(** The value of [verifySignature]: every decoding succeeds and the
    signature scheme answers [true]. *)
Definition verifies `{lib : Library} (message sig pk : string) : bool :=
  match bech32_decode sig, bech32_decode pk with
  | Some sigDecoded, Some pkDecoded =>
      match bech32_fromWords sigDecoded, bech32_fromWords pkDecoded with
      | Some sigBytes, Some pkBytes =>
          default false (ed25519_verify sigBytes (utf8ToBytes message) pkBytes)
      | _, _ => false
      end
  | _, _ => false
  end.

(** The store after an accepted ping, given the three updated estimators. *)
Definition accepted_store `{lib : Library} (now : Z) (dk : string)
    (req : Request) (s : Store) (all' dayHll newHll : HLL) : Store :=
  let userHash := userHashOf (field (publicKey req)) in
  let bloom' := bloom_add (allBloom s) userHash in
  mkStore (<[field (nonce req) := now]> (usedNonces s)) all' bloom'
    (save_all_bf bloom'
       (save_all_hll all'
          (saveDailyData dk (mkDailyData dayHll newHll) (disk s))))
    (immediates s ++ [dk]).

Section Outcomes.
Context `{lib : Library}.

(** The five ways a request can end. *)
Inductive ingest_case (now : Z) (dk : string) (req : Request) (s : Store)
    : Response * Store * list Step -> Prop :=
  | case_missing :
      missing req = true ->
      ingest_case now dk req s
        (Rejected 400 "Missing required fields", s, [ChkFields])
  | case_stale :
      missing req = false ->
      stale now (parseInt (field (timestamp req))) = true ->
      ingest_case now dk req s
        (Rejected 400 "Timestamp too old or in future", s,
         [ChkFields; ChkTimestamp])
  | case_replayed :
      missing req = false ->
      stale now (parseInt (field (timestamp req))) = false ->
      has (usedNonces s) (field (nonce req)) = true ->
      ingest_case now dk req s
        (Rejected 400 "Nonce already used (replay attack?)", s,
         [ChkFields; ChkTimestamp; ChkNonce])
  | case_unsigned :
      missing req = false ->
      stale now (parseInt (field (timestamp req))) = false ->
      has (usedNonces s) (field (nonce req)) = false ->
      verifies (message_of req) (field (signature req)) (field (publicKey req)) = false ->
      ingest_case now dk req s
        (Rejected 401 "Invalid signature", s,
         [ChkFields; ChkTimestamp; ChkNonce; ChkSignature])
  | case_accepted all' dayHll newHll :
      missing req = false ->
      stale now (parseInt (field (timestamp req))) = false ->
      has (usedNonces s) (field (nonce req)) = false ->
      verifies (message_of req) (field (signature req)) (field (publicKey req)) = true ->
      customHllUpdate (allHLL s) (EStr (userHashOf (field (publicKey req)))) = Some all' ->
      customHllUpdate (hll (getDailyData dk (disk s)))
        (EStr (userHashOf (field (publicKey req)))) = Some dayHll ->
      (if negb (bloom_has (allBloom s) (userHashOf (field (publicKey req))))
       then customHllUpdate (newUsersHll (getDailyData dk (disk s)))
              (EStr (userHashOf (field (publicKey req))))
       else Some (newUsersHll (getDailyData dk (disk s)))) = Some newHll ->
      ingest_case now dk req s
        (Accepted dk (negb (bloom_has (allBloom s) (userHashOf (field (publicKey req)))))
           (count dayHll),
         accepted_store now dk req s all' dayHll newHll,
         [ChkFields; ChkTimestamp; ChkNonce; ChkSignature; MarkNonce; TestNew;
          AddBloom; UpdateAll; UpdateDaily]
         ++ (if negb (bloom_has (allBloom s) (userHashOf (field (publicKey req))))
             then [UpdateNew] else [])
         ++ [SaveDaily; SaveAll; SaveBloom; Schedule]).

End Outcomes.

(** Every firing of the interval callback in [evs] happens at or before
    [deadline]. *)
Definition sweeps_by (deadline : Z) (evs : list Event) : bool :=
  forallb (fun e => match e with
                    | EvSweep now => now <=? deadline
                    | EvIngest _ _ _ => true
                    end) evs.

(** ** A small instance of the library interface

    It stands in for the npm packages when the model is run on concrete
    requests: the digest is the first 32 bytes of the input (padded with
    zeros), a Bloom filter is the list of what was added, an encoded key or
    signature is its text after the prefix [hk], a signature verifies when
    it repeats the key, and the estimate counts the non-zero registers. *)
Module Toy.

Definition toy_blake3 (b : list byte) : list byte :=
  take 32 (b ++ replicate 32 x00).

Lemma toy_blake3_length b : length (toy_blake3 b) = 32%nat.
Proof.
  unfold toy_blake3. rewrite length_take, length_app, length_replicate. lia.
Qed.

Definition toy_decode (s : string) : option (list Z) :=
  match s with
  | String "h" (String "k" rest) => Some (map byte_to_Z (list_byte_of_string rest))
  | _ => None
  end.

Definition toy_fromWords (ws : list Z) : option (list byte) :=
  Some (map (fun w => default x00 (Byte.of_N (Z.to_N (w mod 256)))) ws).

Definition toy_verify (sig msg pk : list byte) : option bool :=
  if bool_decide (length sig = 4%nat) then Some (bool_decide (sig = pk)) else None.

Fixpoint digits_value (s : string) (acc : Z) : option Z :=
  match s with
  | EmptyString => Some acc
  | String c rest =>
      let d := Z.of_nat (nat_of_ascii c) - 48 in
      if (0 <=? d) && (d <=? 9) then digits_value rest (10 * acc + d) else None
  end.

Definition toy_parseInt (s : string) : option Z :=
  match s with
  | EmptyString => None
  | _ => digits_value s 0
  end.

Definition toy_count (h : HLL) : Q :=
  inject_Z (Z.of_nat (length (filter (fun r => r <> Num 0) (_registers h)))).

#[export] Instance toy : Library := {|
  Bloom := list string;
  bloom_new := [];
  bloom_has := fun b x => bool_decide (x ∈ b);
  bloom_add := fun b x => x :: b;
  blake3 := toy_blake3;
  blake3_length := toy_blake3_length;
  bytesToHex := string_of_list_byte;
  bech32_decode := toy_decode;
  bech32_fromWords := toy_fromWords;
  ed25519_verify := toy_verify;
  parseInt := toy_parseInt;
  count := toy_count;
  getWeekKey := fun d => d;
  getMonthKey := fun d => d
|}.

Definition emptyDisk : Disk :=
  mkDisk ∅ None None ∅ ∅.

Definition store0 : Store :=
  mkStore ∅ (HyperLogLog_new HLL_REGISTERS) [] emptyDisk [].

(** Two days on disk: one register set on the first, two on the second. *)
Definition dayA : HLL :=
  set_registers (HyperLogLog_new HLL_REGISTERS)
    (<[3%nat := Num 2]> (_registers (HyperLogLog_new HLL_REGISTERS))).

Definition dayB : HLL :=
  set_registers (HyperLogLog_new HLL_REGISTERS)
    (<[5%nat := Num 1]> (<[3%nat := Num 4]> (_registers (HyperLogLog_new HLL_REGISTERS)))).

Definition twoDays : Disk :=
  saveDailyData "2025-01-15" (mkDailyData dayB (HyperLogLog_new HLL_REGISTERS))
    (saveDailyData "2025-01-14" (mkDailyData dayA (HyperLogLog_new HLL_REGISTERS))
       emptyDisk).

(** A well-formed ping under the toy signature scheme. *)
Definition ping (n ts : string) : Request :=
  mkRequest (Some "hkAAAA") (Some ts) (Some n) (Some "hkAAAA").

End Toy.

(** ** Further predicates and helpers for the statements *)

(** The index field of an estimator fits its register array: every index of
    [nb] bits is inside the array. *)
Definition fits (h : HLL) : bool :=
  (0 <=? _nbBytesPerHash h)
  && (2 ^ _nbBytesPerHash h <=? Z.of_nat (length (_registers h))).

(** The value of a byte sequence read as a big-endian number. *)
Definition be_value (bs : list byte) : Z :=
  foldl (fun acc b => acc * 256 + byte_to_Z b) 0 bs.

Section StoreShapes.
Context `{lib : Library}.


(** A daily file holds estimators in the constructor's shape. *)
Definition file_ok (f : DailyFile) : Prop :=
  hll_ok HLL_REGISTERS (file_hll f) = true /\
  from_option (fun h => hll_ok HLL_REGISTERS h = true) True (file_newUsersHll f).

(** Every estimator of the store, in memory and in the daily files, has the
    constructor's shape. *)
Definition store_ok (s : Store) : Prop :=
  hll_ok HLL_REGISTERS (allHLL s) = true /\
  map_Forall (fun _ f => file_ok f) (daily (disk s)).


End StoreShapes.

(** ** GET /api/stats of the draft with daily files *)

Record DayRow : Type := mkDayRow {
  row_date : string;
  row_dau : Q;
  row_newUsers : Q
}.

Record StatsResponse : Type := mkStatsResponse {
  stats_allTime : Q;
  stats_wau : Q;
  stats_mau : Q;
  stats_recentDays : list DayRow;
  stats_retention : Retention RetentionRecord
}.

(** Every numeric register of [a] is matched in [b] by a number at least
    as large. *)
Definition dominated (a b : HLL) : Prop :=
  forall (i : nat) (x : Z),
    _registers a !! i = Some (Num x) ->
    exists y, _registers b !! i = Some (Num y) /\ x <= y.

Section StatsHandler.
Context `{lib : Library}.

(** [files.slice(0, 30).map(...)] *)
Definition recentDays (files : list string) (d : Disk) : list DayRow :=
  map (fun file =>
         let dailyData := getDailyData file d in
         mkDayRow file (count (hll dailyData)) (count (newUsersHll dailyData)))
      (take 30 files).

(** The [forEach] over the days of a window, from position [idx] on, with
    the estimator held so far in [cur] ([None] is [null]).  The first day
    is copied; for the others [merge] is called on the copy as a statement,
    its result (a new estimator) is dropped and the copy stays as it is.
    The outer [None] is an exception. *)
Fixpoint merge_window (idx : nat) (days : list string) (d : Disk)
    (cur : option HLL) : option (option HLL) :=
  match days with
  | [] => Some cur
  | file :: rest =>
      let dailyData := getDailyData file d in
      if (idx =? 0)%nat then merge_window (S idx) rest d (Some (hll dailyData))
      else
        match cur with
        | None => None
        | Some w =>
            match hll_merge w (hll dailyData) with
            | None => None
            | Some _ => merge_window (S idx) rest d (Some w)
            end
        end
  end.

(** The estimator counted for the last [n] days (WAU for 7, MAU for 30):
    what the loop leaves in the variable, or a fresh one when there is no
    day. *)
Definition windowHLL (n : Z) (files : list string) (d : Disk) : option HLL :=
  let days := Z.min n (Z.of_nat (length files)) in
  cur ← (if 0 <? days
         then merge_window 0 (take (Z.to_nat days) files) d None
         else Some None);
  Some (default (HyperLogLog_new HLL_REGISTERS) cur).

(** The handler of GET /api/stats on the listing [files]; [None] is the
    response 500 of its [catch]. *)
Definition get_stats (files : list string) (s : Store) : option StatsResponse :=
  let rows := recentDays files (disk s) in
  wauHLL ← windowHLL 7 files (disk s);
  mauHLL ← windowHLL 30 files (disk s);
  r ← retention files (disk s);
  Some (mkStatsResponse (count (allHLL s)) (count wauHLL) (count mauHLL) rows r).

End StatsHandler.

(** ** The minimal draft: one estimator and one filter *)

Section MinimalDraft.
Context `{lib : Library}.

(** [allTime] and [seenAll] in memory, and their two files. *)
Record MinStore : Type := mkMinStore {
  min_allTime : HLL;
  min_seenAll : Bloom;
  min_allTime_json : option HLL;
  min_seenAll_json : option Bloom
}.

Inductive MinResponse : Type :=
  | MinError (status : Z) (error : string)
  | MinOk (total : Q) (known : bool).

(** POST /ingest of the minimal draft, with its [try]/[catch]. *)
Definition min_ingest (pub : option string) (s : MinStore) : MinResponse * MinStore :=
  if negb (truthy pub) then (MinError 400 "Missing public key", s)
  else
    let p := field pub in
    let known := bloom_has (min_seenAll s) p in
    let seen' := bloom_add (min_seenAll s) p in
    match customHllUpdate (min_allTime s) (EStr p) with
    | None =>
        (MinError 500 "internal",
         mkMinStore (min_allTime s) seen' (min_allTime_json s) (min_seenAll_json s))
    | Some all' =>
        (MinOk (count all') known, mkMinStore all' seen' (Some all') (Some seen'))
    end.

End MinimalDraft.

(** ** The draft with a Bloom filter and a counter per day *)

Section CountedDraft.
Context `{lib : Library}.






End CountedDraft.

(** ** The draft that derives identifiers with HMAC *)

Definition TIMESTAMP_WINDOW : Z := 120.
Definition BLOOM_SIZE : Z := 2048.
Definition BLOOM_HASHES : Z := 4.
Definition HMAC_HLL_REGISTERS : Z := 128.

(** [result.set(arr, offset)] on a typed array; it throws when [arr] does
    not fit. *)
Definition typed_array_set (result arr : list byte) (offset : nat)
    : option (list byte) :=
  if (offset + length arr <=? length result)%nat
  then Some (take offset result ++ arr ++ drop (offset + length arr) result)
  else None.

(** The loop of [concatBytes] over the arrays still to copy. *)
Fixpoint concat_loop (arrays : list (list byte)) (result : list byte)
    (offset : nat) : option (list byte) :=
  match arrays with
  | [] => Some result
  | arr :: rest =>
      match typed_array_set result arr offset with
      | None => None
      | Some result' => concat_loop rest result' (offset + length arr)
      end
  end.

Definition concatBytes (arrays : list (list byte)) : option (list byte) :=
  let totalLength := foldl (fun sum arr => (sum + length arr)%nat) 0%nat arrays in
  concat_loop arrays (replicate totalLength x00) 0.

(** What this draft takes from npm packages besides [Library]. *)
Class HmacLibrary `{lib : Library} : Type := {
  BloomFilter : Type;
  BloomFilter_new : Z -> Z -> BloomFilter;
  BloomFilter_add : BloomFilter -> string -> BloomFilter;
  hexToBytes : string -> option (list byte);
  hmac_sha256 : list byte -> list byte -> list byte;
  hll_update : HLL -> string -> HLL;
  number_toString : Z -> string;
  SERVER_SECRET : list byte
}.

(** The body of a request of this draft; [ts] is a JSON number. *)
Record HmacRequest : Type := mkHmacRequest {
  h_pub : option string;
  h_ts : option Z;
  h_nonce : option string;
  h_sig : option string
}.

(** [!pub || !ts || !nonce || !sig]; the number 0 is falsy. *)
Definition hmac_missing (req : HmacRequest) : bool :=
  negb (truthy (h_pub req))
  || negb (match h_ts req with Some z => negb (z =? 0) | None => false end)
  || negb (truthy (h_nonce req)) || negb (truthy (h_sig req)).

Inductive HmacResponse : Type :=
  | HmacError (status : Z) (error : string)
  | HmacOk (day : string).

Section HmacDraft.
Context `{hlib : HmacLibrary}.

Record DayStats : Type := mkDayStats {
  ds_hll : HLL;
  ds_bloom : BloomFilter
}.

(** The object [stats] after start-up. *)
Record Stats : Type := mkStats {
  st_daily : gmap string DayStats;
  st_allTime : HLL;
  st_seenAll : BloomFilter
}.

(** [stats] and the number of [saveStats] callbacks queued. *)
Record HmacStore : Type := mkHmacStore {
  h_stats : Stats;
  h_saves : nat
}.

Definition initDay (day : string) (st : Stats) : Stats :=
  match st_daily st !! day with
  | Some _ => st
  | None =>
      mkStats (<[day := mkDayStats (HyperLogLog_new HMAC_HLL_REGISTERS)
                          (BloomFilter_new BLOOM_SIZE BLOOM_HASHES)]> (st_daily st))
        (st_allTime st) (st_seenAll st)
  end.

Definition deriveStoredId (pubkeyHex : string) : option string :=
  pubkeyBytes ← hexToBytes pubkeyHex;
  Some (bytesToHex (hmac_sha256 SERVER_SECRET pubkeyBytes)).

(** The four updates of an accepted request, on the day initialised by
    [initDay]. *)
Definition hmac_updates (day storedId : string) (st : Stats) : option Stats :=
  today ← st_daily st !! day;
  let today' := mkDayStats (hll_update (ds_hll today) storedId)
                  (BloomFilter_add (ds_bloom today) storedId) in
  Some (mkStats (<[day := today']> (st_daily st))
          (hll_update (st_allTime st) storedId)
          (BloomFilter_add (st_seenAll st) storedId)).

(** POST /ingest of this draft with its [try]/[catch]; [now] is
    [Math.floor(Date.now() / 1000)] and [day] is [today()]. *)
Definition hmac_ingest (now : Z) (day : string) (req : HmacRequest)
    (s : HmacStore) : HmacResponse * HmacStore :=
  let internal := (HmacError 500 "Internal server error", s) in
  if hmac_missing req then (HmacError 400 "Missing required fields", s)
  else
    let pub := field (h_pub req) in
    let ts := default 0 (h_ts req) in
    let nonce := field (h_nonce req) in
    let sig := field (h_sig req) in
    if Z.abs (now - ts) >? TIMESTAMP_WINDOW
    then (HmacError 400 "Timestamp outside valid window", s)
    else
      match hexToBytes pub with
      | None => internal
      | Some pubBytes =>
      match hexToBytes sig with
      | None => internal
      | Some sigBytes =>
      match concatBytes [pubBytes; utf8ToBytes (number_toString ts);
                         utf8ToBytes nonce] with
      | None => internal
      | Some message =>
      match ed25519_verify sigBytes message pubBytes with
      | None => internal
      | Some false => (HmacError 400 "Invalid signature", s)
      | Some true =>
      match deriveStoredId pub with
      | None => internal
      | Some storedId =>
      match hmac_updates day storedId (initDay day (h_stats s)) with
      | None => internal
      | Some st' => (HmacOk day, mkHmacStore st' (S (h_saves s)))
      end end end end end end.

End HmacDraft.

(** A small instance of the additional interface, for concrete runs: a hex
    string is any text of the digits [0-9a-f], taken as its own bytes; the
    keyed hash prepends the key. *)
Module ToyHmac.

Definition is_hex_digit (c : ascii) : bool :=
  let n := nat_of_ascii c in
  ((48 <=? n) && (n <=? 57) || (97 <=? n) && (n <=? 102))%nat.

Fixpoint all_hex (s : string) : bool :=
  match s with
  | EmptyString => true
  | String c rest => is_hex_digit c && all_hex rest
  end.

#[export] Instance toy_hmac : HmacLibrary (lib := Toy.toy) := {|
  BloomFilter := list string;
  BloomFilter_new := fun _ _ => [];
  BloomFilter_add := fun b x => x :: b;
  hexToBytes := fun s => if all_hex s then Some (list_byte_of_string s) else None;
  hmac_sha256 := fun key msg => key ++ msg;
  hll_update := fun h x => default h (customHllUpdate (lib := Toy.toy) h (EStr x));
  number_toString := fun _ => "0"%string;
  SERVER_SECRET := [x00]
|}.

Definition stats0 : HmacStore :=
  mkHmacStore (hlib := toy_hmac)
    (mkStats (hlib := toy_hmac) ∅ (HyperLogLog_new HMAC_HLL_REGISTERS)
       (BloomFilter_new (HmacLibrary := toy_hmac) BLOOM_SIZE BLOOM_HASHES)) 0.

Definition signed : HmacRequest :=
  mkHmacRequest (Some "abcd") (Some 1000) (Some "n1") (Some "abcd").

End ToyHmac.

(** * Properties

    ** Bit-level facts about the digest and the rank *)

Lemma byte_to_Z_range (b : byte) : 0 <= byte_to_Z b < 256.
Proof.
  unfold byte_to_Z. pose proof (Byte.to_N_bounded b). lia.
Qed.

Lemma lt_pow2_log2 (x n : Z) : 0 <= x -> 0 < n -> x < 2 ^ n <-> Z.log2 x < n.
Proof.
  intros Hx Hn. destruct (Z.eq_dec x 0) as [->|Hne].
  - simpl. split; intros _; [lia | apply Z.pow_pos_nonneg; lia].
  - apply Z.log2_lt_pow2. lia.
Qed.

Lemma lor_shift_byte_range (v b a : Z) :
  0 <= a -> 0 <= v < 2 ^ a -> 0 <= b < 256 ->
  0 <= Z.lor (Z.shiftl v 8) b < 2 ^ (a + 8).
Proof.
  intros Ha Hv Hb.
  assert (Hs : 0 <= Z.shiftl v 8) by (apply Z.shiftl_nonneg; lia).
  split; [apply Z.lor_nonneg; lia|].
  apply lt_pow2_log2; [apply Z.lor_nonneg; lia | lia |].
  rewrite Z.log2_lor by lia.
  apply Z.max_lub_lt.
  - apply lt_pow2_log2; [lia | lia |].
    rewrite Z.shiftl_mul_pow2 by lia. rewrite Z.pow_add_r by lia. nia.
  - apply lt_pow2_log2; [lia | lia |].
    assert (2 ^ 8 <= 2 ^ (a + 8)) by (apply Z.pow_le_mono_r; lia).
    change (2 ^ 8) with 256 in *. lia.
Qed.

Lemma hash_loop_range (n : nat) : forall (i : nat) (bytes : list byte) (v a r : Z),
  0 <= a -> 0 <= v < 2 ^ a ->
  hash_loop n i bytes v = Some r ->
  0 <= r < 2 ^ (a + 8 * Z.of_nat n).
Proof.
  induction n as [|n IH]; intros i bytes v a r Ha Hv Hr; simpl in Hr.
  - inversion Hr; subst. now replace (a + 8 * Z.of_nat 0) with a by lia.
  - destruct (bytes !! i) as [b|] eqn:Hb; [|discriminate].
    replace (a + 8 * Z.of_nat (S n)) with ((a + 8) + 8 * Z.of_nat n) by lia.
    apply (IH (S i) bytes (Z.lor (Z.shiftl v 8) (byte_to_Z b))); [lia | | exact Hr].
    apply lor_shift_byte_range; auto using byte_to_Z_range.
Qed.

Lemma hash_loop_total (n : nat) : forall (i : nat) (bytes : list byte) (v : Z),
  (i + n <= length bytes)%nat -> exists r, hash_loop n i bytes v = Some r.
Proof.
  induction n as [|n IH]; intros i bytes v Hlen; simpl.
  - eauto.
  - destruct (lookup_lt_is_Some_2 bytes i) as [b Hb]; [lia|].
    rewrite Hb. apply IH. lia.
Qed.

Lemma hashTo64BigInt_range (bytes : list byte) (v : Z) :
  hashTo64BigInt bytes = Some v -> 0 <= v < 2 ^ 64.
Proof.
  intros Hv. apply (hash_loop_range 8 0 bytes 0 0 v) in Hv; simpl in *; lia.
Qed.

Lemma hashTo64BigInt_total (bytes : list byte) :
  (8 <= length bytes)%nat -> exists v, hashTo64BigInt bytes = Some v.
Proof. intros Hlen. apply hash_loop_total. lia. Qed.

Lemma pos_digits_head (p : positive) : forall acc,
  exists rest, pos_digits p acc = String "1" rest.
Proof.
  induction p as [q IH|q IH|]; intros acc; simpl; eauto.
Qed.

Lemma pos_digits_length (p : positive) : forall acc,
  Z.of_nat (String.length (pos_digits p acc))
  = Z.log2 (Zpos p) + 1 + Z.of_nat (String.length acc).
Proof.
  induction p as [q IH|q IH|]; intros acc.
  - simpl pos_digits. rewrite IH.
    change (Z.pos q~1) with (2 * Z.pos q + 1).
    rewrite Z.log2_succ_double by lia. simpl String.length. lia.
  - simpl pos_digits. rewrite IH.
    change (Z.pos q~0) with (2 * Z.pos q).
    rewrite Z.log2_double by lia. simpl String.length. lia.
  - simpl. lia.
Qed.

Lemma indexOf_pad_one (n : nat) : forall (rest : string) (i : Z),
  indexOf_from "1" (pad_zeros n (String "1" rest)) i = i + Z.of_nat n.
Proof.
  induction n as [|n IH]; intros rest i; simpl.
  - lia.
  - rewrite IH. lia.
Qed.

Lemma indexOf_pad_zero (n : nat) : forall (i : Z),
  indexOf_from "1" (pad_zeros n "0") i = -1.
Proof.
  induction n as [|n IH]; intros i; simpl; auto.
Qed.

Lemma shiftr_range (v nb : Z) :
  0 <= v < 2 ^ 64 -> nb < 64 -> 0 <= Z.shiftr v nb < 2 ^ (64 - nb).
Proof.
  intros Hv Hnb. split; [apply Z.shiftr_nonneg; lia|].
  destruct (Z.le_gt_cases 0 nb) as [Hpos|Hneg].
  - rewrite Z.shiftr_div_pow2 by lia.
    apply Z.div_lt_upper_bound; [apply Z.pow_pos_nonneg; lia|].
    rewrite <- Z.pow_add_r by lia. now replace (nb + (64 - nb)) with 64 by lia.
  - rewrite <- Z.shiftl_opp_r, Z.shiftl_mul_pow2 by lia.
    replace (64 - nb) with (64 + - nb) by lia. rewrite Z.pow_add_r by lia.
    assert (0 < 2 ^ (- nb)) by (apply Z.pow_pos_nonneg; lia). nia.
Qed.

Lemma shiftr_high (v nb : Z) :
  0 <= v < 2 ^ 64 -> 64 <= nb -> Z.shiftr v nb = 0.
Proof.
  intros Hv Hnb. apply Z.shiftr_eq_0; [lia|].
  destruct (Z.eq_dec v 0) as [->|Hne]; [simpl; lia|].
  assert (Z.log2 v < 64) by (apply Z.log2_lt_pow2; lia). lia.
Qed.

(** The rank in closed form. *)
Lemma rho_closed_form (nb v : Z) :
  0 <= v < 2 ^ 64 ->
  rho nb v = if Z.shiftr v nb =? 0 then 64 - nb
             else 64 - nb - Z.log2 (Z.shiftr v nb).
Proof.
  intros Hv. unfold rho.
  destruct (Z.shiftr v nb) as [|p|p] eqn:Hs.
  - simpl toString2. unfold padStart, indexOf.
    rewrite indexOf_pad_zero. reflexivity.
  - assert (Hnb : nb < 64).
    { destruct (Z.lt_ge_cases nb 64); [assumption|].
      rewrite shiftr_high in Hs by lia. discriminate. }
    pose proof (shiftr_range v nb Hv Hnb) as Hr. rewrite Hs in Hr.
    assert (Hlog : Z.log2 (Z.pos p) < 64 - nb) by (apply Z.log2_lt_pow2; lia).
    simpl toString2. unfold padStart, indexOf.
    destruct (pos_digits_head p "") as [rest Hrest].
    pose proof (pos_digits_length p "") as Hlen. simpl String.length in Hlen at 2.
    rewrite Hrest in *. rewrite indexOf_pad_one.
    rewrite Z2Nat.id by lia.
    replace (Z.pos p =? 0) with false by reflexivity.
    destruct (_ =? -1) eqn:E; lia.
  - pose proof (Z.shiftr_nonneg v nb). lia.
Qed.

Lemma registerIndex_mod (nb v : Z) :
  0 <= nb -> registerIndex nb v = v mod 2 ^ nb.
Proof.
  intros Hnb. unfold registerIndex.
  rewrite Z.shiftl_1_l, Z.sub_1_r, <- Z.ones_equiv. now apply Z.land_ones.
Qed.

Lemma customHllUpdate_digest `{lib : Library} (e : element) :
  exists v, hashTo64BigInt (blake3 (element_bytes e)) = Some v /\ 0 <= v < 2 ^ 64.
Proof.
  destruct (hashTo64BigInt_total (blake3 (element_bytes e))) as [v Hv].
  - rewrite blake3_length. lia.
  - exists v. split; [assumption | now apply hashTo64BigInt_range in Hv].
Qed.

(** ** The HyperLogLog update *)

(** C1, as the code has it: the update takes eight digest bytes as a 64-bit
    value [v], uses the low [nb] bits as the register index and the bits
    above as the remainder; the rank is one plus the number of leading zero
    bits of the remainder in its field of [k = 64 - nb] bits (counted from
    the top of the digest), or [k] when the remainder is zero; the register
    takes the maximum of its value and the rank.  (The index field is
    taken to have at most 31 bits, so that the index is an array index.) *)
Theorem customHllUpdate_rank_from_top `{lib : Library} (h : HLL) (e : element) :
  0 <= _nbBytesPerHash h <= 31 ->
  exists v,
    hashTo64BigInt (blake3 (element_bytes e)) = Some v /\ 0 <= v < 2 ^ 64 /\
    let nb := _nbBytesPerHash h in
    let index := v mod 2 ^ nb in
    let remainder := v / 2 ^ nb in
    let k := 64 - nb in
    let rank := if remainder =? 0 then k else 1 + leading_zeros k remainder in
    customHllUpdate h e
    = Some (set_registers h
              (js_set (_registers h) index
                 (Math_max (js_get (_registers h) index) (Num rank)))).
Proof.
  intros Hnb. destruct (customHllUpdate_digest e) as (v & Hv & Hrange).
  exists v. split; [assumption|]. split; [assumption|]. cbv zeta.
  unfold customHllUpdate. rewrite Hv.
  rewrite registerIndex_mod by apply Hnb.
  rewrite rho_closed_form by assumption.
  rewrite Z.shiftr_div_pow2 by apply Hnb.
  unfold leading_zeros.
  destruct (v / 2 ^ _nbBytesPerHash h =? 0); [reflexivity|].
  do 5 f_equal. lia.
Qed.

Lemma customHllUpdate_rank_from_top_witness :
  0 <= _nbBytesPerHash (HyperLogLog_new HLL_REGISTERS) <= 31 /\
  exists v,
    hashTo64BigInt (blake3 (Library := Toy.toy) (element_bytes (EBytes [x00; x00; x00; x00; x00; x00; x04; x00])))
    = Some v /\ 0 <= v < 2 ^ 64 /\
    customHllUpdate (lib := Toy.toy) (HyperLogLog_new HLL_REGISTERS)
      (EBytes [x00; x00; x00; x00; x00; x00; x04; x00])
    = Some (set_registers (HyperLogLog_new HLL_REGISTERS)
              (js_set (_registers (HyperLogLog_new HLL_REGISTERS)) (v mod 2 ^ 10)
                 (Math_max (js_get (_registers (HyperLogLog_new HLL_REGISTERS)) (v mod 2 ^ 10))
                    (Num (if v / 2 ^ 10 =? 0 then 54
                          else 1 + leading_zeros 54 (v / 2 ^ 10)))))).
Proof.
  split; [vm_compute; split; discriminate|].
  apply (@customHllUpdate_rank_from_top Toy.toy (HyperLogLog_new HLL_REGISTERS)
           (EBytes [x00; x00; x00; x00; x00; x00; x04; x00])).
  vm_compute. split; discriminate.
Defined.

(** C1 as worded fails.  The hash is a parameter; under the instance [Toy]
    the digest of these eight bytes starts with the bytes themselves,
    [00 00 00 00 00 00 04 00].  The 64-bit value is [2^10], so with a 10-bit
    index the register is 0 and the remainder is 1; its least-significant
    set bit is at position 0, which would give rank 1, but the code finds
    the first ['1'] of the 54-character binary string at index 53 and
    stores 54. *)
Lemma customHllUpdate_not_lsb_rank :
  customHllUpdate (lib := Toy.toy) (HyperLogLog_new HLL_REGISTERS)
    (EBytes [x00; x00; x00; x00; x00; x00; x04; x00])
  <> add_worded (lib := Toy.toy) (HyperLogLog_new HLL_REGISTERS)
       (EBytes [x00; x00; x00; x00; x00; x00; x04; x00]).
Proof. vm_compute. discriminate. Qed.

(** ** Estimators in the constructor's shape *)

Lemma forallb_Forall {A} (f : A -> bool) (l : list A) :
  forallb f l = true <-> Forall (fun x => f x = true) l.
Proof.
  induction l as [|x l IH]; simpl.
  - split; [constructor | reflexivity].
  - rewrite andb_true_iff, IH, Forall_cons. reflexivity.
Qed.

Lemma hll_ok_spec (m : Z) (h : HLL) :
  hll_ok m h = true <->
  _nbRegisters h = m /\ _nbBytesPerHash h = Z.log2 m /\
  Z.of_nat (length (_registers h)) = m /\
  Forall (fun r => reg_ok (64 - Z.log2 m) r = true) (_registers h).
Proof.
  unfold hll_ok. rewrite !andb_true_iff, !Z.eqb_eq, forallb_Forall. tauto.
Qed.

Lemma reg_ok_spec (k : Z) (r : jsnum) :
  reg_ok k r = true <-> exists z, r = Num z /\ 0 <= z <= k.
Proof.
  destruct r as [z| |]; simpl.
  - rewrite andb_true_iff, Z.leb_le, Z.leb_le. split.
    + intros Hz. exists z. auto.
    + intros (z' & Heq & Hz). inversion Heq; subst. assumption.
  - split; [discriminate | intros (z & Heq & _); discriminate].
  - split; [discriminate | intros (z & Heq & _); discriminate].
Qed.

Lemma HyperLogLog_new_ok (m : Z) :
  0 <= m -> Z.log2 m <= 64 -> hll_ok m (HyperLogLog_new m) = true.
Proof.
  intros Hm Hlog. apply hll_ok_spec. simpl.
  rewrite length_replicate, Z2Nat.id by assumption.
  repeat split; try reflexivity.
  apply Forall_replicate. apply reg_ok_spec. exists 0. split; [reflexivity | lia].
Qed.

Lemma rho_range (nb v : Z) :
  0 <= v < 2 ^ 64 -> nb < 64 -> 1 <= rho nb v <= 64 - nb.
Proof.
  intros Hv Hnb. rewrite rho_closed_form by assumption.
  pose proof (shiftr_range v nb Hv Hnb) as Hs.
  destruct (Z.shiftr v nb =? 0) eqn:E; [lia|].
  apply Z.eqb_neq in E.
  assert (Z.log2 (Z.shiftr v nb) < 64 - nb) by (apply Z.log2_lt_pow2; lia).
  pose proof (Z.log2_nonneg (Z.shiftr v nb)). lia.
Qed.

(** One update of an estimator of [m = 2^p] registers: the index is inside
    the array, the rank is between 1 and [64 - p], and the shape is kept. *)
Lemma customHllUpdate_keeps_ok `{lib : Library} (m : Z) (h : HLL) (e : element) :
  2 ^ Z.log2 m = m -> Z.log2 m < 64 ->
  hll_ok m h = true ->
  exists v h',
    hashTo64BigInt (blake3 (element_bytes e)) = Some v /\
    customHllUpdate h e = Some h' /\
    0 <= registerIndex (_nbBytesPerHash h) v < Z.of_nat (length (_registers h)) /\
    1 <= rho (_nbBytesPerHash h) v <= 64 - Z.log2 m /\
    length (_registers h') = length (_registers h) /\
    hll_ok m h' = true.
Proof.
  intros Hpow Hlog Hok.
  apply hll_ok_spec in Hok as (Hm & Hnb & Hlen & Hregs).
  destruct (customHllUpdate_digest e) as (v & Hv & Hrange).
  pose proof (Z.log2_nonneg m) as Hp.
  assert (Hidx : 0 <= registerIndex (_nbBytesPerHash h) v
                 < Z.of_nat (length (_registers h))).
  { rewrite Hnb, registerIndex_mod, Hpow, Hlen by assumption.
    apply Z.mod_pos_bound. rewrite <- Hpow. apply Z.pow_pos_nonneg; lia. }
  assert (Hrho : 1 <= rho (_nbBytesPerHash h) v <= 64 - Z.log2 m).
  { rewrite Hnb. apply rho_range; assumption. }
  set (i := registerIndex (_nbBytesPerHash h) v) in *.
  set (r := rho (_nbBytesPerHash h) v) in *.
  destruct (lookup_lt_is_Some_2 (_registers h) (Z.to_nat i)) as [old Hold]; [lia|].
  assert (Hget : js_get (_registers h) i = old).
  { unfold js_get. destruct (Z.ltb_spec i 0); [lia|]. now rewrite Hold. }
  assert (Hset : forall x, js_set (_registers h) i x = <[Z.to_nat i := x]> (_registers h)).
  { intros x. unfold js_set.
    destruct (Nat.ltb_spec (Z.to_nat i) (length (_registers h))); [reflexivity | lia]. }
  assert (Hreg : reg_ok (64 - Z.log2 m) old = true).
  { rewrite Forall_lookup in Hregs. exact (Hregs _ _ Hold). }
  apply reg_ok_spec in Hreg as (z & -> & Hz).
  exists v, (set_registers h (<[Z.to_nat i := Num (Z.max z r)]> (_registers h))).
  split; [assumption|]. split.
  { unfold customHllUpdate. rewrite Hv. cbv zeta. fold i r.
    now rewrite Hget, Hset. }
  split; [assumption|]. split; [assumption|]. split.
  { simpl. apply length_insert. }
  apply hll_ok_spec. simpl. rewrite length_insert.
  repeat split; try assumption.
  apply Forall_insert; [assumption|].
  apply reg_ok_spec. exists (Z.max z r). split; [reflexivity | lia].
Qed.

(** C10: an estimator built with the configured register count keeps the
    constructor's shape under [customHllUpdate]; the register index is
    always below the length of the register array, so the write is in
    bounds and the array never grows, and the rank lies between 1 and 54,
    within the six bits of a register. *)
Theorem customHllUpdate_in_bounds `{lib : Library} :
  hll_ok HLL_REGISTERS (HyperLogLog_new HLL_REGISTERS) = true /\
  forall (h : HLL) (e : element),
    hll_ok HLL_REGISTERS h = true ->
    exists v h',
      hashTo64BigInt (blake3 (element_bytes e)) = Some v /\
      customHllUpdate h e = Some h' /\
      0 <= registerIndex (_nbBytesPerHash h) v < Z.of_nat (length (_registers h)) /\
      1 <= rho (_nbBytesPerHash h) v <= 54 /\ 54 < 2 ^ 6 /\
      length (_registers h') = length (_registers h) /\
      hll_ok HLL_REGISTERS h' = true.
Proof.
  split; [reflexivity|].
  intros h e Hok.
  destruct (customHllUpdate_keeps_ok HLL_REGISTERS h e) as
    (v & h' & Hv & Hup & Hidx & Hrho & Hlen & Hok'); try assumption.
  - reflexivity.
  - reflexivity.
  - exists v, h'. change (64 - Z.log2 HLL_REGISTERS) with 54 in Hrho.
    repeat split; try assumption; try apply Hidx; try apply Hrho.
Qed.

Lemma customHllUpdate_in_bounds_witness :
  hll_ok HLL_REGISTERS (HyperLogLog_new HLL_REGISTERS) = true /\
  exists v h',
    hashTo64BigInt (blake3 (Library := Toy.toy) (element_bytes (EStr "user"))) = Some v /\
    customHllUpdate (lib := Toy.toy) (HyperLogLog_new HLL_REGISTERS) (EStr "user") = Some h' /\
    0 <= registerIndex 10 v < 1024 /\
    1 <= rho 10 v <= 54 /\ 54 < 2 ^ 6 /\
    length (_registers h') = 1024%nat /\
    hll_ok HLL_REGISTERS h' = true.
Proof.
  split; [reflexivity|].
  apply (proj2 (@customHllUpdate_in_bounds Toy.toy)
           (HyperLogLog_new HLL_REGISTERS) (EStr "user")).
  reflexivity.
Defined.

(** ** Merging estimators *)

Lemma Math_max_comm (x y : jsnum) : Math_max x y = Math_max y x.
Proof. destruct x, y; simpl; try reflexivity. now rewrite Z.max_comm. Qed.

Lemma Math_max_assoc (x y z : jsnum) :
  Math_max (Math_max x y) z = Math_max x (Math_max y z).
Proof. destruct x, y, z; simpl; try reflexivity. now rewrite Z.max_assoc. Qed.

Lemma zip_max_comm (l1 : list jsnum) : forall l2,
  zip_with Math_max l1 l2 = zip_with Math_max l2 l1.
Proof.
  induction l1 as [|x l1 IH]; intros [|y l2]; simpl; try reflexivity.
  now rewrite Math_max_comm, IH.
Qed.

Lemma zip_max_assoc (l1 : list jsnum) : forall l2 l3,
  zip_with Math_max (zip_with Math_max l1 l2) l3
  = zip_with Math_max l1 (zip_with Math_max l2 l3).
Proof.
  induction l1 as [|x l1 IH]; intros [|y l2] [|z l3]; simpl; try reflexivity.
  now rewrite Math_max_assoc, IH.
Qed.

Lemma zip_max_idem (k : Z) (l : list jsnum) :
  Forall (fun r => reg_ok k r = true) l -> zip_with Math_max l l = l.
Proof.
  induction 1 as [|x l Hx _ IH]; simpl; [reflexivity|].
  apply reg_ok_spec in Hx as (z & -> & _). simpl.
  now rewrite Z.max_id, IH.
Qed.

Lemma zip_max_ok (k : Z) (l1 : list jsnum) : forall l2,
  Forall (fun r => reg_ok k r = true) l1 ->
  Forall (fun r => reg_ok k r = true) l2 ->
  Forall (fun r => reg_ok k r = true) (zip_with Math_max l1 l2).
Proof.
  induction l1 as [|x l1 IH]; intros [|y l2] H1 H2; simpl; try constructor.
  - apply Forall_cons in H1 as [Hx _]. apply Forall_cons in H2 as [Hy _].
    apply reg_ok_spec in Hx as (a & -> & Ha).
    apply reg_ok_spec in Hy as (b & -> & Hb).
    apply reg_ok_spec. exists (Z.max a b). split; [reflexivity | lia].
  - apply Forall_cons in H1 as [_ H1]. apply Forall_cons in H2 as [_ H2]. auto.
Qed.

Lemma hll_merge_ok (m : Z) (a b : HLL) :
  hll_ok m a = true -> hll_ok m b = true ->
  hll_merge a b
  = Some (set_registers a (zip_with Math_max (_registers a) (_registers b)))
  /\ hll_ok m (set_registers a (zip_with Math_max (_registers a) (_registers b))) = true.
Proof.
  intros Ha Hb.
  apply hll_ok_spec in Ha as (Ham & Hanb & Halen & Haregs).
  apply hll_ok_spec in Hb as (Hbm & Hbnb & Hblen & Hbregs).
  split.
  - unfold hll_merge. rewrite Ham, Hbm, Z.eqb_refl. reflexivity.
  - apply hll_ok_spec. simpl. rewrite length_zip_with.
    repeat split; try assumption; [lia|]. now apply zip_max_ok.
Qed.

Lemma set_registers_eq (m : Z) (a b : HLL) (l : list jsnum) :
  hll_ok m a = true -> hll_ok m b = true ->
  set_registers a l = set_registers b l.
Proof.
  intros Ha Hb.
  apply hll_ok_spec in Ha as (Ham & Hanb & _).
  apply hll_ok_spec in Hb as (Hbm & Hbnb & _).
  unfold set_registers. congruence.
Qed.

(** C2 (the package's [merge] is taken as the specification words it): for
    estimators of the same register count [m], the merge exists, holds the
    pointwise maximum of the two register arrays, and is commutative,
    associative and idempotent. *)
Theorem hll_merge_pointwise_max_semilattice (m : Z) (a b c : HLL) :
  hll_ok m a = true -> hll_ok m b = true -> hll_ok m c = true ->
  exists ab bc abc,
    hll_merge a b = Some ab /\ hll_merge b c = Some bc /\
    hll_ok m ab = true /\
    length (_registers ab) = length (_registers a) /\
    (forall (i : nat) (x y : Z),
        _registers a !! i = Some (Num x) -> _registers b !! i = Some (Num y) ->
        _registers ab !! i = Some (Num (Z.max x y))) /\
    hll_merge b a = Some ab /\
    hll_merge ab c = Some abc /\ hll_merge a bc = Some abc /\
    hll_merge a a = Some a.
Proof.
  intros Ha Hb Hc.
  destruct (hll_merge_ok m a b Ha Hb) as [Hab Hokab].
  destruct (hll_merge_ok m b c Hb Hc) as [Hbc Hokbc].
  destruct (hll_merge_ok m b a Hb Ha) as [Hba _].
  destruct (hll_merge_ok m _ c Hokab Hc) as [Habc _].
  destruct (hll_merge_ok m a _ Ha Hokbc) as [Habc' _].
  destruct (hll_merge_ok m a a Ha Ha) as [Haa _].
  eexists _, _, _.
  split; [exact Hab|]. split; [exact Hbc|]. split; [exact Hokab|].
  split.
  { simpl. rewrite length_zip_with.
    apply hll_ok_spec in Ha as (_ & _ & Halen & _).
    apply hll_ok_spec in Hb as (_ & _ & Hblen & _). lia. }
  split.
  { intros i x y Hx Hy. simpl. rewrite lookup_zip_with, Hx, Hy. reflexivity. }
  split.
  { rewrite Hba, zip_max_comm. f_equal. now apply (set_registers_eq m). }
  split; [exact Habc|]. split.
  { rewrite Habc'. simpl. now rewrite zip_max_assoc. }
  rewrite Haa. f_equal.
  apply hll_ok_spec in Ha as (_ & _ & _ & Haregs).
  rewrite (zip_max_idem _ _ Haregs). now destruct a.
Qed.

Lemma hll_merge_pointwise_max_semilattice_witness :
  hll_ok 4 (mkHLL 4 2 [Num 1; Num 0; Num 5; Num 2]) = true /\
  hll_ok 4 (mkHLL 4 2 [Num 3; Num 0; Num 4; Num 0]) = true /\
  hll_ok 4 (mkHLL 4 2 [Num 0; Num 7; Num 0; Num 1]) = true /\
  exists ab bc abc,
    hll_merge (mkHLL 4 2 [Num 1; Num 0; Num 5; Num 2])
      (mkHLL 4 2 [Num 3; Num 0; Num 4; Num 0]) = Some ab /\
    hll_merge (mkHLL 4 2 [Num 3; Num 0; Num 4; Num 0])
      (mkHLL 4 2 [Num 0; Num 7; Num 0; Num 1]) = Some bc /\
    hll_ok 4 ab = true /\
    length (_registers ab) = 4%nat /\
    (forall (i : nat) (x y : Z),
        [Num 1; Num 0; Num 5; Num 2] !! i = Some (Num x) ->
        [Num 3; Num 0; Num 4; Num 0] !! i = Some (Num y) ->
        _registers ab !! i = Some (Num (Z.max x y))) /\
    hll_merge (mkHLL 4 2 [Num 3; Num 0; Num 4; Num 0])
      (mkHLL 4 2 [Num 1; Num 0; Num 5; Num 2]) = Some ab /\
    hll_merge ab (mkHLL 4 2 [Num 0; Num 7; Num 0; Num 1]) = Some abc /\
    hll_merge (mkHLL 4 2 [Num 1; Num 0; Num 5; Num 2]) bc = Some abc /\
    hll_merge (mkHLL 4 2 [Num 1; Num 0; Num 5; Num 2])
      (mkHLL 4 2 [Num 1; Num 0; Num 5; Num 2])
    = Some (mkHLL 4 2 [Num 1; Num 0; Num 5; Num 2]).
Proof.
  split; [reflexivity|]. split; [reflexivity|]. split; [reflexivity|].
  apply (hll_merge_pointwise_max_semilattice 4
           (mkHLL 4 2 [Num 1; Num 0; Num 5; Num 2])
           (mkHLL 4 2 [Num 3; Num 0; Num 4; Num 0])
           (mkHLL 4 2 [Num 0; Num 7; Num 0; Num 1])); reflexivity.
Defined.

(** ** The ingest handler, case by case *)

Section IngestFacts.
Context `{lib : Library}.

Lemma verifySignature_run (message sig pk : string) (s : Store) :
  verifySignature message sig pk s = (Next (verifies message sig pk), s, []).
Proof.
  unfold verifySignature, verifies, try_catch, bind, lift, ret.
  destruct (bech32_decode sig) as [sw|]; [|reflexivity].
  destruct (bech32_decode pk) as [pw|]; [|reflexivity].
  destruct (bech32_fromWords sw) as [sb|]; [|reflexivity].
  destruct (bech32_fromWords pw) as [pb|]; [|reflexivity].
  destruct (ed25519_verify sb (utf8ToBytes message) pb) as [b|]; reflexivity.
Qed.

Lemma customHllUpdate_total (h : HLL) (e : element) :
  exists h', customHllUpdate h e = Some h'.
Proof.
  destruct (customHllUpdate_digest e) as (v & Hv & _).
  unfold customHllUpdate. rewrite Hv. eauto.
Qed.

Lemma post_ingest_missing now dk req s :
  missing req = true ->
  post_ingest now dk req s = (Rejected 400 "Missing required fields", s, [ChkFields]).
Proof.
  intros Hm. unfold post_ingest, ingest, bind, tick. rewrite Hm. reflexivity.
Qed.

Lemma post_ingest_stale now dk req s :
  missing req = false ->
  stale now (parseInt (field (timestamp req))) = true ->
  post_ingest now dk req s
  = (Rejected 400 "Timestamp too old or in future", s, [ChkFields; ChkTimestamp]).
Proof.
  intros Hm Hs. unfold post_ingest, ingest, bind, tick. rewrite Hm. cbv zeta.
  rewrite Hs. reflexivity.
Qed.

Lemma post_ingest_replayed now dk req s :
  missing req = false ->
  stale now (parseInt (field (timestamp req))) = false ->
  has (usedNonces s) (field (nonce req)) = true ->
  post_ingest now dk req s
  = (Rejected 400 "Nonce already used (replay attack?)", s,
     [ChkFields; ChkTimestamp; ChkNonce]).
Proof.
  intros Hm Hs Hn. unfold post_ingest, ingest, bind, tick, gets. rewrite Hm. cbv zeta.
  rewrite Hs, Hn. reflexivity.
Qed.

Lemma post_ingest_unsigned now dk req s :
  missing req = false ->
  stale now (parseInt (field (timestamp req))) = false ->
  has (usedNonces s) (field (nonce req)) = false ->
  verifies (message_of req) (field (signature req)) (field (publicKey req)) = false ->
  post_ingest now dk req s
  = (Rejected 401 "Invalid signature", s,
     [ChkFields; ChkTimestamp; ChkNonce; ChkSignature]).
Proof.
  intros Hm Hs Hn Hv. unfold post_ingest, ingest, bind, tick, gets. rewrite Hm. cbv zeta.
  rewrite Hs, Hn, verifySignature_run, Hv. reflexivity.
Qed.

Lemma post_ingest_accepted now dk req s all' dayHll newHll :
  missing req = false ->
  stale now (parseInt (field (timestamp req))) = false ->
  has (usedNonces s) (field (nonce req)) = false ->
  verifies (message_of req) (field (signature req)) (field (publicKey req)) = true ->
  let userHash := userHashOf (field (publicKey req)) in
  let dailyData := getDailyData dk (disk s) in
  let isNewUser := negb (bloom_has (allBloom s) userHash) in
  customHllUpdate (allHLL s) (EStr userHash) = Some all' ->
  customHllUpdate (hll dailyData) (EStr userHash) = Some dayHll ->
  (if isNewUser then customHllUpdate (newUsersHll dailyData) (EStr userHash)
   else Some (newUsersHll dailyData)) = Some newHll ->
  post_ingest now dk req s
  = (Accepted dk isNewUser (count dayHll),
     accepted_store now dk req s all' dayHll newHll,
     [ChkFields; ChkTimestamp; ChkNonce; ChkSignature; MarkNonce; TestNew;
      AddBloom; UpdateAll; UpdateDaily]
     ++ (if isNewUser then [UpdateNew] else [])
     ++ [SaveDaily; SaveAll; SaveBloom; Schedule]).
Proof.
  intros Hm Hs Hn Hv userHash dailyData isNewUser Hall Hday Hnew.
  unfold post_ingest, ingest, bind, tick, gets, modify, lift, ret. rewrite Hm. cbv zeta.
  rewrite Hs, Hn, verifySignature_run, Hv. simpl.
  fold userHash. fold dailyData. rewrite Hall. simpl. rewrite Hday.
  fold isNewUser. destruct isNewUser; simpl.
  - rewrite Hnew. reflexivity.
  - inversion Hnew; subst. reflexivity.
Qed.

Lemma post_ingest_case now dk req s :
  ingest_case now dk req s (post_ingest now dk req s).
Proof.
  destruct (missing req) eqn:Hm.
  { rewrite post_ingest_missing by assumption. now constructor. }
  destruct (stale now (parseInt (field (timestamp req)))) eqn:Hs.
  { rewrite post_ingest_stale by assumption. now constructor. }
  destruct (has (usedNonces s) (field (nonce req))) eqn:Hn.
  { rewrite post_ingest_replayed by assumption. now constructor. }
  destruct (verifies (message_of req) (field (signature req)) (field (publicKey req))) eqn:Hv.
  2:{ rewrite post_ingest_unsigned by assumption. now constructor. }
  set (uh := userHashOf (field (publicKey req))).
  destruct (customHllUpdate_total (allHLL s) (EStr uh)) as [all' Hall].
  destruct (customHllUpdate_total (hll (getDailyData dk (disk s))) (EStr uh)) as [dh Hday].
  assert (Hnew : exists nh,
    (if negb (bloom_has (allBloom s) uh)
     then customHllUpdate (newUsersHll (getDailyData dk (disk s))) (EStr uh)
     else Some (newUsersHll (getDailyData dk (disk s)))) = Some nh).
  { destruct (negb (bloom_has (allBloom s) uh)); [apply customHllUpdate_total | eauto]. }
  destruct Hnew as [nh Hnew].
  rewrite (post_ingest_accepted now dk req s all' dh nh) by assumption.
  now apply case_accepted.
Qed.

End IngestFacts.

(** ** Validation order, signature check, updates and rejections *)

(** C3, as the code has it: in the handler that keeps the replay guard, the checks
    run in the order fields, timestamp, nonce, signature; the first one
    that fails ends the request with its rejection, and the statements run
    are exactly the checks up to that one: no later check and no update.
    Only when all four pass does the nonce get marked and the updates
    follow. *)
Theorem ingest_checks_in_order `{lib : Library} (now : Z) (dk : string)
    (req : Request) (s : Store) :
  let r := (post_ingest now dk req s).1.1 in
  let t := (post_ingest now dk req s).2 in
  if missing req
  then r = Rejected 400 "Missing required fields" /\ t = [ChkFields]
  else if stale now (parseInt (field (timestamp req)))
  then r = Rejected 400 "Timestamp too old or in future"
       /\ t = [ChkFields; ChkTimestamp]
  else if has (usedNonces s) (field (nonce req))
  then r = Rejected 400 "Nonce already used (replay attack?)"
       /\ t = [ChkFields; ChkTimestamp; ChkNonce]
  else if negb (verifies (message_of req) (field (signature req))
                  (field (publicKey req)))
  then r = Rejected 401 "Invalid signature"
       /\ t = [ChkFields; ChkTimestamp; ChkNonce; ChkSignature]
  else exists newUser dau rest,
         r = Accepted dk newUser dau
         /\ t = [ChkFields; ChkTimestamp; ChkNonce; ChkSignature]
                ++ MarkNonce :: rest.
Proof.
  cbv zeta.
  destruct (post_ingest_case now dk req s) as
    [Hm|Hm Hs|Hm Hs Hn|Hm Hs Hn Hv|all' dh nh Hm Hs Hn Hv _ _ _]; simpl;
    rewrite ?Hm, ?Hs, ?Hn, ?Hv; simpl; auto.
  eexists _, _, _. split; reflexivity.
Qed.

(** Counterexample to C3 as worded, which speaks of every /ingest request:
    the handler of the HMAC draft has no nonce check.  A signed request is
    accepted, and the same request, with the same nonce, is accepted again
    at once; and a request whose signature is not valid hex is answered 500
    by the handler's [catch], between the timestamp check and the decision
    on the signature. *)
Lemma hmac_ingest_never_checks_the_nonce :
  (hmac_ingest (hlib := ToyHmac.toy_hmac) 1000 "2025-01-15" ToyHmac.signed
     ToyHmac.stats0).1 = HmacOk "2025-01-15" /\
  (hmac_ingest (hlib := ToyHmac.toy_hmac) 1000 "2025-01-15" ToyHmac.signed
     (hmac_ingest (hlib := ToyHmac.toy_hmac) 1000 "2025-01-15" ToyHmac.signed
        ToyHmac.stats0).2).1 = HmacOk "2025-01-15" /\
  (hmac_ingest (hlib := ToyHmac.toy_hmac) 1000 "2025-01-15"
     (mkHmacRequest (Some "abcd") (Some 1000) (Some "n1") (Some "xyz"))
     ToyHmac.stats0).1 = HmacError 500 "Internal server error".
Proof. vm_compute. repeat split; reflexivity. Qed.

(** C5, as the code has it: signature verification fails closed on every input,
    in one of two ways.  [verifySignature] always returns a boolean: it
    never throws, never ends the request by itself, and leaves the store as
    it was.  It returns [true] only when both encodings decode and the
    signature scheme answers [true]; a key or signature that fails to
    decode, or on which the scheme throws, gives [false], and in exactly
    that case the call has one effect: its [catch] branch prints one line
    on the console.  The HMAC draft has no such function: there a key or
    signature that is not valid hex throws inside the handler, whose
    [catch] answers 500 and leaves the statistics as they were. *)
Theorem verifySignature_fails_closed `{hlib : HmacLibrary}
    (message sig pk : string) (s : Store)
    (now : Z) (day : string) (req : HmacRequest) (hs : HmacStore) :
  (exists b : bool,
     verifySignature message sig pk s = (Next b, s, []) /\
     (b = true <->
      exists sigDecoded pkDecoded sigBytes pkBytes,
        bech32_decode sig = Some sigDecoded /\
        bech32_decode pk = Some pkDecoded /\
        bech32_fromWords sigDecoded = Some sigBytes /\
        bech32_fromWords pkDecoded = Some pkBytes /\
        ed25519_verify sigBytes (utf8ToBytes message) pkBytes = Some true) /\
     (verifySignature_console message sig pk s = [] <->
      exists sigDecoded pkDecoded sigBytes pkBytes answer,
        bech32_decode sig = Some sigDecoded /\
        bech32_decode pk = Some pkDecoded /\
        bech32_fromWords sigDecoded = Some sigBytes /\
        bech32_fromWords pkDecoded = Some pkBytes /\
        ed25519_verify sigBytes (utf8ToBytes message) pkBytes = Some answer) /\
     (verifySignature_console message sig pk s <> [] ->
      b = false /\
      verifySignature_console message sig pk s
      = ["Signature verification error:"%string])) /\
  (hmac_missing req = false ->
   Z.abs (now - default 0 (h_ts req)) <= TIMESTAMP_WINDOW ->
   hexToBytes (field (h_pub req)) = None \/ hexToBytes (field (h_sig req)) = None ->
   hmac_ingest now day req hs = (HmacError 500 "Internal server error", hs)).
Proof.
  split.
  - exists (verifies message sig pk). split; [apply verifySignature_run|].
    unfold verifies, verifySignature_console, bind, lift.
    destruct (bech32_decode sig) as [sw|] eqn:E1.
    2:{ split; [|split].
        - split; [discriminate | intros (? & ? & ? & ? & ? & _); discriminate].
        - split; [discriminate | intros (? & ? & ? & ? & ? & ? & _); discriminate].
        - intros _. split; reflexivity. }
    destruct (bech32_decode pk) as [pw|] eqn:E2.
    2:{ split; [|split].
        - split; [discriminate | intros (? & ? & ? & ? & _ & ? & _); discriminate].
        - split; [discriminate | intros (? & ? & ? & ? & ? & _ & ? & _); discriminate].
        - intros _. split; reflexivity. }
    destruct (bech32_fromWords sw) as [sb|] eqn:E3.
    2:{ split; [|split].
        - split; [discriminate|].
          intros (? & ? & ? & ? & Hs & _ & Hb & _). inversion Hs; subst. congruence.
        - split; [discriminate|].
          intros (? & ? & ? & ? & ? & Hs & _ & Hb & _). inversion Hs; subst. congruence.
        - intros _. split; reflexivity. }
    destruct (bech32_fromWords pw) as [pb|] eqn:E4.
    2:{ split; [|split].
        - split; [discriminate|].
          intros (? & ? & ? & ? & _ & Hp & _ & Hb & _). inversion Hp; subst. congruence.
        - split; [discriminate|].
          intros (? & ? & ? & ? & ? & _ & Hp & _ & Hb & _). inversion Hp; subst.
          congruence.
        - intros _. split; reflexivity. }
    destruct (ed25519_verify sb (utf8ToBytes message) pb) as [answer|] eqn:E5.
    + split; [|split].
      * split.
        -- intros Hb. simpl in Hb. subst answer. exists sw, pw, sb, pb. auto.
        -- intros (? & ? & ? & ? & Hs & Hp & Hsb & Hpb & Hv).
           inversion Hs; inversion Hp; subst. rewrite E3 in Hsb. rewrite E4 in Hpb.
           inversion Hsb; inversion Hpb; subst. rewrite E5 in Hv. now inversion Hv.
      * split; [|reflexivity]. intros _. exists sw, pw, sb, pb, answer. auto.
      * intros Hne. now contradiction Hne.
    + split; [|split].
      * split; [discriminate|].
        intros (? & ? & ? & ? & Hs & Hp & Hsb & Hpb & Hv).
        inversion Hs; inversion Hp; subst. rewrite E3 in Hsb. rewrite E4 in Hpb.
        inversion Hsb; inversion Hpb; subst. congruence.
      * split; [discriminate|].
        intros (? & ? & ? & ? & ? & Hs & Hp & Hsb & Hpb & Hv).
        inversion Hs; inversion Hp; subst. rewrite E3 in Hsb. rewrite E4 in Hpb.
        inversion Hsb; inversion Hpb; subst. congruence.
      * intros _. split; reflexivity.
  - intros Hm Hfresh Hbad. unfold hmac_ingest. cbv zeta. rewrite Hm.
    destruct (Z.gtb_spec (Z.abs (now - default 0 (h_ts req))) TIMESTAMP_WINDOW); [lia|].
    destruct (hexToBytes (field (h_pub req))) as [pubBytes|]; [|reflexivity].
    destruct Hbad as [Hbad|Hbad]; [discriminate|]. now rewrite Hbad.
Qed.

Lemma verifySignature_fails_closed_witness :
  verifySignature (lib := Toy.toy) "1000:abc" "not-bech32" "hkAAAA" Toy.store0
  = (Next false, Toy.store0, []) /\
  hmac_ingest (hlib := ToyHmac.toy_hmac) 1000 "2025-01-15"
    (mkHmacRequest (Some "abcd") (Some 1000) (Some "n1") (Some "not-hex"))
    ToyHmac.stats0
  = (HmacError 500 "Internal server error", ToyHmac.stats0).
Proof.
  destruct (@verifySignature_fails_closed Toy.toy ToyHmac.toy_hmac
              "1000:abc" "not-bech32" "hkAAAA" Toy.store0 1000 "2025-01-15"
              (mkHmacRequest (Some "abcd") (Some 1000) (Some "n1") (Some "not-hex"))
              ToyHmac.stats0) as [(b & Hrun & Htrue & _) Hhmac].
  split.
  - rewrite Hrun. destruct b; [|reflexivity].
    destruct (proj1 Htrue eq_refl) as (sw & _ & _ & _ & Hdec & _).
    discriminate Hdec.
  - apply Hhmac; [reflexivity | vm_compute; discriminate | right; reflexivity].
Defined.

(** Counterexample to C5 as worded: in the HMAC draft a signature that is
    not valid hex is not answered with a failed verification: the decoding
    throws and the handler answers 500.  And [verifySignature] itself,
    which does return [false] on a signature that does not decode, has an
    effect when it does: it prints the error on the console. *)
Lemma malformed_signature_throws_or_prints :
  hmac_ingest (hlib := ToyHmac.toy_hmac) 1000 "2025-01-15"
    (mkHmacRequest (Some "abcd") (Some 1000) (Some "n1") (Some "not-hex"))
    ToyHmac.stats0
  = (HmacError 500 "Internal server error", ToyHmac.stats0) /\
  verifySignature (lib := Toy.toy) "1000:abc" "not-bech32" "hkAAAA" Toy.store0
  = (Next false, Toy.store0, []) /\
  verifySignature_console (lib := Toy.toy) "1000:abc" "not-bech32" "hkAAAA" Toy.store0
  = ["Signature verification error:"%string].
Proof. repeat split; vm_compute; reflexivity. Qed.

(** C8: when a ping is accepted, the new-user flag of the response is the
    negated answer of the global filter as it was before the identifier was
    added; afterwards the global filter contains the identifier, the global
    estimator and the day's estimator have been updated with it, and the
    day's new-users estimator has been updated exactly when the flag is
    set. *)
Theorem accepted_ping_updates `{lib : Library} (now : Z) (dk : string)
    (req : Request) (s s' : Store) (date : string) (newUser : bool) (dau : Q)
    (t : list Step) :
  post_ingest now dk req s = (Accepted date newUser dau, s', t) ->
  let userHash := userHashOf (field (publicKey req)) in
  let before := getDailyData dk (disk s) in
  newUser = negb (bloom_has (allBloom s) userHash) /\
  allBloom s' = bloom_add (allBloom s) userHash /\
  customHllUpdate (allHLL s) (EStr userHash) = Some (allHLL s') /\
  (exists dayHll newHll,
      daily (disk s') !! dk = Some (mkDailyFile dayHll (Some newHll)) /\
      customHllUpdate (hll before) (EStr userHash) = Some dayHll /\
      (if newUser
       then customHllUpdate (newUsersHll before) (EStr userHash) = Some newHll
       else newHll = newUsersHll before) /\
      dau = count dayHll) /\
  date = dk /\
  t = [ChkFields; ChkTimestamp; ChkNonce; ChkSignature; MarkNonce; TestNew;
       AddBloom; UpdateAll; UpdateDaily]
      ++ (if newUser then [UpdateNew] else [])
      ++ [SaveDaily; SaveAll; SaveBloom; Schedule].
Proof.
  intros Hrun. cbv zeta.
  destruct (post_ingest_case now dk req s) as
    [Hm|Hm Hs|Hm Hs Hn|Hm Hs Hn Hv|all' dh nh Hm Hs Hn Hv Hall Hday Hnew];
    try discriminate Hrun.
  inversion Hrun; subst; clear Hrun.
  split; [reflexivity|]. split; [reflexivity|]. split; [exact Hall|].
  split; [|split; reflexivity].
  exists dh, nh. split.
  { simpl. apply lookup_insert_eq. }
  split; [exact Hday|]. split; [|reflexivity].
  destruct (negb (bloom_has _ _)); [exact Hnew | now inversion Hnew].
Qed.

(** C9: a request that is rejected leaves the whole store as it was: the
    nonce map, the global estimator and filter, the files and the queue of
    deferred work.  In particular a nonce presented with a bad signature is
    not recorded, and a later, correctly signed and fresh request with the
    same nonce is accepted. *)
Theorem rejected_ping_changes_nothing `{lib : Library} (now : Z) (dk : string)
    (req : Request) (s s' : Store) (status : Z) (err : string) (t : list Step) :
  post_ingest now dk req s = (Rejected status err, s', t) ->
  s' = s /\
  (status = 401 ->
   forall (now2 : Z) (dk2 : string) (req2 : Request),
     nonce req2 = nonce req ->
     missing req2 = false ->
     stale now2 (parseInt (field (timestamp req2))) = false ->
     verifies (message_of req2) (field (signature req2)) (field (publicKey req2)) = true ->
     exists newUser dau s2 t2,
       post_ingest now2 dk2 req2 s' = (Accepted dk2 newUser dau, s2, t2) /\
       usedNonces s2 !! field (nonce req) = Some now2).
Proof.
  intros Hrun.
  destruct (post_ingest_case now dk req s) as
    [Hm|Hm Hs|Hm Hs Hn|Hm Hs Hn Hv|all' dh nh Hm Hs Hn Hv Hall Hday Hnew];
    inversion Hrun; subst; clear Hrun; (split; [reflexivity|]);
    try (intros Hst; discriminate Hst).
  intros _ now2 dk2 req2 Hnonce Hm2 Hs2 Hv2.
  assert (Hn2 : has (usedNonces s') (field (nonce req2)) = false)
    by now rewrite Hnonce.
  destruct (post_ingest_case now2 dk2 req2 s') as
    [Hm'|Hm' Hs'|Hm' Hs' Hn'|Hm' Hs' Hn' Hv'|all' dh nh _ _ _ _ _ _ _];
    try congruence.
  eexists _, _, _, _. split; [reflexivity|].
  simpl. rewrite <- Hnonce. apply lookup_insert_eq.
Qed.

Lemma accepted_ping_updates_witness :
  let run := post_ingest (lib := Toy.toy) 1000 "2025-01-15"
               (Toy.ping "abc" "1000") Toy.store0 in
  run = (Accepted "2025-01-15" true 1, run.1.2, run.2) /\
  allBloom run.1.2 = [userHashOf (lib := Toy.toy) "hkAAAA"] /\
  customHllUpdate (lib := Toy.toy) (allHLL Toy.store0)
    (EStr (userHashOf (lib := Toy.toy) "hkAAAA")) = Some (allHLL run.1.2).
Proof.
  intros run.
  assert (Hrun : run = (Accepted "2025-01-15" true 1, run.1.2, run.2))
    by (vm_compute; reflexivity).
  split; [exact Hrun|].
  destruct (@accepted_ping_updates Toy.toy _ _ _ _ _ _ _ _ _ Hrun)
    as (_ & Hbloom & Hall & _).
  split; [exact Hbloom | exact Hall].
Defined.

Lemma rejected_ping_changes_nothing_witness :
  let forged := mkRequest (Some "hkAAAA") (Some "1000") (Some "abc") (Some "hkBBBB") in
  let run := post_ingest (lib := Toy.toy) 1000 "2025-01-15" forged Toy.store0 in
  run = (Rejected 401 "Invalid signature", run.1.2, run.2) /\
  run.1.2 = Toy.store0 /\
  exists newUser dau s2 t2,
    post_ingest (lib := Toy.toy) 2000 "2025-01-15" (Toy.ping "abc" "2000") run.1.2
    = (Accepted "2025-01-15" newUser dau, s2, t2) /\
    usedNonces s2 !! "abc"%string = Some 2000.
Proof.
  intros forged run.
  assert (Hrun : run = (Rejected 401 "Invalid signature", run.1.2, run.2))
    by (vm_compute; reflexivity).
  split; [exact Hrun|].
  destruct (@rejected_ping_changes_nothing Toy.toy _ _ _ _ _ _ _ _ Hrun)
    as (Hsame & Hlater).
  split; [exact Hsame|].
  apply (Hlater eq_refl 2000 "2025-01-15"%string (Toy.ping "abc" "2000"));
    reflexivity.
Defined.

(** ** The replay guard *)

Lemma has_true (m : gmap string Z) (n : string) :
  has m n = true <-> is_Some (m !! n).
Proof. unfold has. apply bool_decide_eq_true. Qed.

Lemma has_false (m : gmap string Z) (n : string) :
  has m n = false <-> m !! n = None.
Proof.
  unfold has. rewrite bool_decide_eq_false, eq_None_not_Some. reflexivity.
Qed.

(** What the interval callback leaves in the map. *)
Lemma sweep_lookup (now : Z) (m : gmap string Z) (n : string) :
  sweep now m !! n
  = match m !! n with
    | Some ts => if now - ts >? NONCE_WINDOW_MS then None else Some ts
    | None => None
    end.
Proof.
  unfold sweep.
  assert (Hgen : forall m0 : gmap string Z,
    map_fold (fun n ts acc => if now - ts >? NONCE_WINDOW_MS then delete n acc else acc)
      m0 m !! n
    = match m !! n with
      | Some ts => if now - ts >? NONCE_WINDOW_MS then None else m0 !! n
      | None => m0 !! n
      end).
  { intros m0.
    apply (map_fold_weak_ind (fun r (m' : gmap string Z) =>
      r !! n = match m' !! n with
               | Some ts => if now - ts >? NONCE_WINDOW_MS then None else m0 !! n
               | None => m0 !! n
               end)).
    - now rewrite lookup_empty.
    - intros i x m' r Hi IH.
      destruct (decide (i = n)) as [->|Hne].
      + rewrite lookup_insert_eq. rewrite Hi in IH.
        destruct (now - x >? NONCE_WINDOW_MS); [apply lookup_delete_eq | exact IH].
      + rewrite lookup_insert_ne by assumption.
        destruct (now - x >? NONCE_WINDOW_MS); [|exact IH].
        now rewrite lookup_delete_ne. }
  rewrite Hgen. destruct (m !! n) as [ts|]; reflexivity.
Qed.

Section RunFacts.
Context `{lib : Library}.

Lemma step_event_keeps (s : Store) (e : Event) (n : string) (t : Z) :
  usedNonces s !! n = Some t ->
  match e with
  | EvSweep now => now <= t + NONCE_WINDOW_MS
  | EvIngest _ _ _ => True
  end ->
  usedNonces (step_event s e) !! n = Some t.
Proof.
  intros Hn He. destruct e as [now|now dk req]; simpl.
  - rewrite sweep_lookup, Hn.
    destruct (Z.gtb_spec (now - t) NONCE_WINDOW_MS); [lia | reflexivity].
  - destruct (post_ingest_case now dk req s) as
      [Hm|Hm Hs|Hm Hs Hu|Hm Hs Hu Hv|all' dh nh Hm Hs Hu Hv _ _ _]; simpl;
      try assumption.
    apply has_false in Hu.
    rewrite lookup_insert_ne; [assumption | congruence].
Qed.

Lemma run_events_keeps (evs : list Event) : forall (s : Store) (n : string) (t : Z),
  usedNonces s !! n = Some t ->
  sweeps_by (t + NONCE_WINDOW_MS) evs = true ->
  usedNonces (run_events evs s) !! n = Some t.
Proof.
  induction evs as [|e evs IH]; intros s n t Hn Hev; simpl in *.
  - assumption.
  - apply andb_true_iff in Hev as [He Hev].
    apply IH; [|assumption].
    apply step_event_keeps; [assumption|].
    destruct e; [now apply Z.leb_le | exact I].
Qed.

Lemma present_nonce_rejected (now : Z) (dk : string) (req : Request) (s : Store) :
  is_Some (usedNonces s !! field (nonce req)) ->
  exists status err t,
    post_ingest now dk req s = (Rejected status err, s, t).
Proof.
  intros Hn. apply has_true in Hn.
  destruct (post_ingest_case now dk req s) as
    [Hm|Hm Hs|Hm Hs Hu|Hm Hs Hu Hv|all' dh nh Hm Hs Hu Hv _ _ _];
    try (eexists _, _, _; reflexivity); congruence.
Qed.

End RunFacts.

(** C4, as the code has it: for a request that passes the field and
    timestamp checks, a nonce found in the map is refused and the store is
    unchanged, whatever the age of the entry; a nonce not in the map, with
    a valid signature, is recorded with the current time and the request is
    accepted.  Once recorded at time [now], the entry survives every run of
    the server whose sweeps fire no later than [now + NONCE_WINDOW_MS], and
    any request carrying that nonce is then rejected without a change. *)
Theorem replay_guard_by_presence `{lib : Library} (now : Z) (dk : string)
    (req : Request) (s : Store) :
  missing req = false ->
  stale now (parseInt (field (timestamp req))) = false ->
  (is_Some (usedNonces s !! field (nonce req)) ->
   post_ingest now dk req s
   = (Rejected 400 "Nonce already used (replay attack?)", s,
      [ChkFields; ChkTimestamp; ChkNonce])) /\
  (usedNonces s !! field (nonce req) = None ->
   verifies (message_of req) (field (signature req)) (field (publicKey req)) = true ->
   exists newUser dau s' t,
     post_ingest now dk req s = (Accepted dk newUser dau, s', t) /\
     usedNonces s' = <[field (nonce req) := now]> (usedNonces s) /\
     forall (evs : list Event) (now2 : Z) (dk2 : string) (req2 : Request),
       sweeps_by (now + NONCE_WINDOW_MS) evs = true ->
       nonce req2 = nonce req ->
       exists status err t2,
         post_ingest now2 dk2 req2 (run_events evs s')
         = (Rejected status err, run_events evs s', t2)).
Proof.
  intros Hm Hs. split.
  - intros Hn. apply has_true in Hn. now apply post_ingest_replayed.
  - intros Hn Hv. apply has_false in Hn.
    destruct (post_ingest_case now dk req s) as
      [Hm'|Hm' Hs'|Hm' Hs' Hu|Hm' Hs' Hu Hv'|all' dh nh _ _ _ _ _ _ _];
      try congruence.
    eexists _, _, _, _. split; [reflexivity|]. split; [reflexivity|].
    intros evs now2 dk2 req2 Hev Hnonce.
    apply present_nonce_rejected. rewrite Hnonce.
    exists now. apply run_events_keeps; [|assumption].
    simpl. apply lookup_insert_eq.
Qed.

Lemma replay_guard_by_presence_witness :
  let s1 := (post_ingest (lib := Toy.toy) 0 "2025-01-15" (Toy.ping "abc" "0")
               Toy.store0).1.2 in
  usedNonces s1 = <["abc"%string := 0]> (usedNonces Toy.store0) /\
  exists status err t2,
    post_ingest (lib := Toy.toy) 30000 "2025-01-15" (Toy.ping "abc" "30000")
      (run_events [EvSweep 30000] s1)
    = (Rejected status err, run_events [EvSweep 30000] s1, t2).
Proof.
  intros s1.
  destruct (@replay_guard_by_presence Toy.toy 0 "2025-01-15"%string
              (Toy.ping "abc" "0") Toy.store0 eq_refl eq_refl) as [_ Hfresh].
  destruct (Hfresh eq_refl eq_refl) as (nu & dau & s' & t & Hrun & Hused & Hlater).
  assert (Hs1 : s1 = s') by (unfold s1; now rewrite Hrun).
  rewrite Hs1. split; [exact Hused|].
  apply (Hlater [EvSweep 30000] 30000 "2025-01-15"%string (Toy.ping "abc" "30000"));
    reflexivity.
Defined.

(** C4 as worded fails: with ["abc"] recorded at time 0 and no sweep since
    the one at 60000 (which keeps it, 60000 not being greater than the
    window), a request at 70000 with a fresh timestamp and a signature that
    verifies carries an expired nonce; as worded it is recorded and
    accepted, but the handler only asks whether the map has the key and
    rejects it, leaving the store as it was. *)
Lemma expired_nonce_still_rejected :
  let guard : gmap string Z := sweep 60000 {["abc"%string := 0]} in
  let s := set_usedNonces guard Toy.store0 in
  (accept_worded NONCE_WINDOW_MS guard "abc" 70000).1 = true /\
  (post_ingest (lib := Toy.toy) 70000 "2025-01-15" (Toy.ping "abc" "70000") s).1
  = (Rejected 400 "Nonce already used (replay attack?)", s).
Proof. vm_compute. split; reflexivity. Qed.

(** ** Retention *)

Lemma Math_max_Q_lower (x : Q) : (0 <= Math_max_Q 0 x)%Q /\ (x <= Math_max_Q 0 x)%Q.
Proof.
  unfold Math_max_Q. destruct (Qle_bool 0 x) eqn:E.
  - apply Qle_bool_iff in E. split; [assumption | apply Qle_refl].
  - split; [apply Qle_refl|].
    destruct (Qlt_le_dec x 0) as [Hlt|Hle]; [now apply Qlt_le_weak|].
    apply Qle_bool_iff in Hle. congruence.
Qed.

Lemma Math_round_nonneg (x : Q) : (0 <= x)%Q -> 0 <= Math_round x.
Proof.
  intros Hx. unfold Math_round.
  change 0 with (Qfloor 0). apply Qfloor_resp_le.
  apply Qle_trans with x; [assumption|].
  rewrite <- (Qplus_0_r x) at 1. apply Qplus_le_compat; [apply Qle_refl | discriminate].
Qed.

Lemma Qgtb_true (a b : Q) : Qgtb a b = true <-> (b < a)%Q.
Proof.
  unfold Qgtb. rewrite negb_true_iff. split.
  - intros E. destruct (Qlt_le_dec b a) as [Hlt|Hle]; [assumption|].
    apply Qle_bool_iff in Hle. congruence.
  - intros Hlt. destruct (Qle_bool a b) eqn:E; [|reflexivity].
    apply Qle_bool_iff in E. exfalso. exact (Qlt_not_le _ _ Hlt E).
Qed.

Lemma js_nth_Some (files : list string) (i : Z) (x : string) :
  js_nth files i = Some x -> 0 <= i < Z.of_nat (length files).
Proof.
  unfold js_nth. destruct (Z.ltb_spec i 0); [discriminate|].
  intros Hx. apply lookup_lt_Some in Hx. lia.
Qed.

Lemma js_nth_in_range (files : list string) (i : Z) :
  0 <= i < Z.of_nat (length files) -> exists x, js_nth files i = Some x.
Proof.
  intros Hi. unfold js_nth. destruct (Z.ltb_spec i 0); [lia|].
  destruct (lookup_lt_is_Some_2 files (Z.to_nat i)) as [x Hx]; [lia|]. eauto.
Qed.

Lemma getDailyData_ok `{lib : Library} (k : string) (d : Disk) :
  map_Forall (fun _ f => file_ok f) (daily d) ->
  hll_ok HLL_REGISTERS (hll (getDailyData k d)) = true /\
  hll_ok HLL_REGISTERS (newUsersHll (getDailyData k d)) = true.
Proof.
  intros Hd. unfold getDailyData.
  destruct (daily d !! k) as [f|] eqn:Hk; simpl.
  - destruct (Hd _ _ Hk) as [Hh Hn]. split; [exact Hh|].
    destruct (file_newUsersHll f); [exact Hn | reflexivity].
  - split; reflexivity.
Qed.

(** Merging into the estimator that [calcRetention] creates does not
    throw, whatever well-shaped estimator is merged. *)
Lemma merge_into_fresh (a : HLL) :
  hll_ok HLL_REGISTERS a = true ->
  exists u, hll_merge (HyperLogLog_new HLL_REGISTERS) a = Some u.
Proof.
  intros Ha.
  assert (Hnew : hll_ok HLL_REGISTERS (HyperLogLog_new HLL_REGISTERS) = true)
    by reflexivity.
  destruct (hll_merge_ok _ _ _ Hnew Ha) as [H1 _]. eauto.
Qed.

(** The record [calcRetention] answers for two well-shaped days: the size
    of the union is the estimate of the estimator created empty. *)
Lemma calcRetention_value `{lib : Library} (files : list string) (d : Disk)
    (cohortIdx returnIdx : Z) (cohortDay returnDay : string) :
  js_nth files cohortIdx = Some cohortDay ->
  js_nth files returnIdx = Some returnDay ->
  hll_ok HLL_REGISTERS (hll (getDailyData cohortDay d)) = true ->
  hll_ok HLL_REGISTERS (hll (getDailyData returnDay d)) = true ->
  calcRetention files d cohortIdx returnIdx
  = let A := hll (getDailyData cohortDay d) in
    let B := hll (getDailyData returnDay d) in
    let retained :=
      Math_max_Q 0%Q (count A + count B - count (HyperLogLog_new HLL_REGISTERS))%Q in
    let rate := if Qgtb (count A) 0%Q then (retained / count A * 100)%Q else 0%Q in
    Some (Some (mkRetentionRecord cohortDay returnDay (Math_round (count A))
                  (Math_round retained)
                  (inject_Z (Math_round (rate * 100)%Q) / 100)%Q)).
Proof.
  intros Hc Hr HA HB.
  pose proof (js_nth_Some _ _ _ Hc) as Hci.
  pose proof (js_nth_Some _ _ _ Hr) as Hri.
  destruct (merge_into_fresh _ HA) as [u1 H1].
  destruct (merge_into_fresh _ HB) as [u2 H2].
  unfold calcRetention.
  destruct (Z.leb_spec (Z.of_nat (length files)) (Z.max cohortIdx returnIdx)); [lia|].
  rewrite Hc, Hr. cbv zeta. rewrite H1, H2. reflexivity.
Qed.

Lemma Math_max_Q_cases (x : Q) :
  (Math_max_Q 0 x = 0%Q /\ (x <= 0)%Q) \/ (Math_max_Q 0 x = x /\ (0 <= x)%Q).
Proof.
  unfold Math_max_Q. destruct (Qle_bool 0 x) eqn:E.
  - right. split; [reflexivity | now apply Qle_bool_iff].
  - left. split; [reflexivity|].
    destruct (Qlt_le_dec x 0) as [Hlt|Hle]; [now apply Qlt_le_weak|].
    apply Qle_bool_iff in Hle. congruence.
Qed.

(** C6: [calcRetention] does not count the union of the two days.  For
    two days whose estimators have the configured shape it answers a
    record and never an exception, and the merge of the two estimators
    exists; but both [merge] calls drop their result, so the size read for
    the union is that of the estimator created empty, [|E|], and the
    overlap reported is [|A| + |B| - |E|] clamped at zero where the claim
    has [|A| + |B| - |A u B|]: whenever the merge counts more than the
    empty estimator and the overlap is positive, the overlap reported is
    strictly larger than the claim's.  The clamp, the rate
    ([overlap / |A| * 100] when [|A| > 0], else 0) and the rounding are as
    the claim says. *)
Theorem calcRetention_reads_empty_union `{lib : Library} (files : list string)
    (d : Disk) (cohortIdx returnIdx : Z) (cohortDay returnDay : string) :
  js_nth files cohortIdx = Some cohortDay ->
  js_nth files returnIdx = Some returnDay ->
  let A := hll (getDailyData cohortDay d) in
  let B := hll (getDailyData returnDay d) in
  hll_ok HLL_REGISTERS A = true ->
  hll_ok HLL_REGISTERS B = true ->
  exists (merged : HLL) (r : RetentionRecord),
    hll_merge A B = Some merged /\
    calcRetention files d cohortIdx returnIdx = Some (Some r) /\
    let unionSize := count (HyperLogLog_new HLL_REGISTERS) in
    let raw := (count A + count B - unionSize)%Q in
    let overlap := Math_max_Q 0%Q raw in
    let rate := if Qgtb (count A) 0%Q then (overlap / count A * 100)%Q else 0%Q in
    (0 <= overlap)%Q /\ (raw <= overlap)%Q /\
    ((0 <= raw)%Q -> overlap = raw) /\
    (0 <= rate)%Q /\
    cohortDate r = cohortDay /\ returnDate r = returnDay /\
    cohortSize r = Math_round (count A) /\
    returnedUsers r = Math_round overlap /\ 0 <= returnedUsers r /\
    retentionRate r = (inject_Z (Math_round (rate * 100)%Q) / 100)%Q /\
    ((unionSize < count merged)%Q -> (0 < raw)%Q ->
     (Math_max_Q 0%Q (count A + count B - count merged) < overlap)%Q).
Proof.
  intros Hc Hr A B HA HB.
  destruct (hll_merge_ok _ _ _ HA HB) as [Hm _].
  eexists _, _. split; [exact Hm|]. split.
  { rewrite (calcRetention_value files d cohortIdx returnIdx cohortDay returnDay)
      by assumption. reflexivity. }
  cbv zeta. fold A B.
  set (merged := set_registers A (zip_with Math_max (_registers A) (_registers B))).
  set (raw := (count A + count B - count (HyperLogLog_new HLL_REGISTERS))%Q).
  destruct (Math_max_Q_lower raw) as [H0 Hraw].
  split; [exact H0|]. split; [exact Hraw|]. split.
  { intros Hpos. unfold Math_max_Q. apply Qle_bool_iff in Hpos. now rewrite Hpos. }
  split.
  { destruct (Qgtb (count A) 0) eqn:E; [|apply Qle_refl].
    apply Qgtb_true in E.
    apply Qmult_le_0_compat; [|discriminate].
    apply Qmult_le_0_compat; [exact H0|].
    apply Qinv_le_0_compat. now apply Qlt_le_weak. }
  cbn [cohortDate returnDate cohortSize returnedUsers retentionRate].
  split; [reflexivity|]. split; [reflexivity|]. split; [reflexivity|].
  split; [reflexivity|]. split; [now apply Math_round_nonneg|].
  split; [reflexivity|].
  intros Hlt Hpos.
  apply Qlt_le_trans with raw; [|exact Hraw].
  assert (Hless : (count A + count B - count merged < raw)%Q).
  { unfold raw.
    apply Qplus_lt_r with (z := (count merged + count (HyperLogLog_new HLL_REGISTERS))%Q).
    assert (E1 : (count merged + count (HyperLogLog_new HLL_REGISTERS)
                  + (count A + count B - count merged)
                  == count A + count B + count (HyperLogLog_new HLL_REGISTERS))%Q) by ring.
    assert (E2 : (count merged + count (HyperLogLog_new HLL_REGISTERS)
                  + (count A + count B - count (HyperLogLog_new HLL_REGISTERS))
                  == count A + count B + count merged)%Q) by ring.
    rewrite E1, E2. now apply Qplus_lt_r. }
  destruct (Math_max_Q_cases (count A + count B - count merged)) as [[-> _]|[-> _]];
    assumption.
Qed.

Lemma calcRetention_reads_empty_union_witness :
  exists (merged : HLL) (r : RetentionRecord),
    hll_merge Toy.dayA Toy.dayB = Some merged /\
    calcRetention (lib := Toy.toy) ["2025-01-15"; "2025-01-14"]%string
      Toy.twoDays 1 0 = Some (Some r) /\
    cohortSize r = 1 /\ returnedUsers r = 3 /\ (retentionRate r == 300)%Q /\
    Math_round (Math_max_Q 0%Q (count (Library := Toy.toy) Toy.dayA
                                + count (Library := Toy.toy) Toy.dayB
                                - count (Library := Toy.toy) merged)) = 1.
Proof.
  destruct (@calcRetention_reads_empty_union Toy.toy
              ["2025-01-15"; "2025-01-14"]%string Toy.twoDays 1 0
              "2025-01-14"%string "2025-01-15"%string eq_refl eq_refl eq_refl eq_refl)
    as (u & r & Hu & Hr & _).
  exists u, r. split; [exact Hu|]. split; [exact Hr|].
  vm_compute in Hr. inversion Hr; subst r; clear Hr.
  vm_compute in Hu. inversion Hu; subst u; clear Hu.
  repeat split; vm_compute; reflexivity.
Defined.

(** Every entry that [retention] computes from two or more files is a
    record. *)
Lemma calcRetention_in_range `{lib : Library} (files : list string) (d : Disk) (i : Z) :
  0 <= i < Z.of_nat (length files) -> (0 < length files)%nat ->
  calcRetention files d i 0 <> Some None.
Proof.
  intros Hi Hlen. unfold calcRetention.
  destruct (Z.leb_spec (Z.of_nat (length files)) (Z.max i 0)); [lia|].
  destruct (js_nth files i); [|discriminate].
  destruct (js_nth files 0); [|discriminate].
  cbv zeta.
  destruct (hll_merge _ _); [|discriminate].
  destruct (hll_merge _ _); discriminate.
Qed.

(** An entry of [retention] on well-shaped files: a record whose cohort
    day is the file at the index asked for and whose return day is the
    first file. *)
Lemma calcRetention_entry `{lib : Library} (files : list string) (d : Disk) (i : Z) :
  map_Forall (fun _ f => file_ok f) (daily d) ->
  0 <= i < Z.of_nat (length files) ->
  exists r, calcRetention files d i 0 = Some (Some r) /\
            js_nth files i = Some (cohortDate r) /\
            js_nth files 0 = Some (returnDate r).
Proof.
  intros Hd Hi.
  destruct (js_nth_in_range files i Hi) as [ci Hci].
  destruct (js_nth_in_range files 0) as [r0 Hr0]; [lia|].
  destruct (getDailyData_ok ci d Hd) as [HA _].
  destruct (getDailyData_ok r0 d Hd) as [HB _].
  rewrite (calcRetention_value files d i 0 ci r0) by assumption.
  cbv zeta. eexists. split; [reflexivity|]. split; assumption.
Qed.

(** Counterexample to C7 as worded: with only two daily files, so that no
    bucket lies seven or thirty days back, the entries [d7] and [d30] are
    populated all the same, both from the older of the two files. *)
Lemma d7_and_d30_filled_from_two_days :
  exists r r7 r30,
    retention (lib := Toy.toy) ["2025-01-15"; "2025-01-14"]%string Toy.twoDays
    = Some r /\
    d7 r = Some r7 /\ d30 r = Some r30 /\
    cohortDate r7 = "2025-01-14"%string /\ returnDate r7 = "2025-01-15"%string /\
    cohortDate r30 = "2025-01-14"%string /\ returnDate r30 = "2025-01-15"%string.
Proof.
  vm_compute. eexists _, _, _. repeat split; reflexivity.
Qed.

(** C7, as the code has it: every entry of the retention object is a record or
    [null].  With fewer than two daily files all three entries are [null]
    in both drafts.  With two or more, the draft that estimates by
    inclusion-exclusion populates all three entries whenever it answers,
    and on well-shaped files it answers: [d1] from the second file, [d7]
    and [d30] from the file at index [min(7, n-1)] and [min(30, n-1)] (the
    oldest file when fewer than 8 or 31 exist), each against the first
    file.  The draft with fixed offsets leaves [d7] null below eight files
    and [d30] null below thirty-one, and populates an entry when the file
    at its offset (1, 7, 30) and the first file can both be read, with the
    cohort's stored count. *)
Theorem retention_entries_by_history `{lib : Library} (files : list string)
    (d : Disk) (counted : gmap string CountedDay) :
  ((length files < 2)%nat ->
   retention files d = Some (mkRetention None None None) /\
   calculateRetention files counted = mkRetention None None None) /\
  ((2 <= length files)%nat ->
   forall r, retention files d = Some r ->
             is_Some (d1 r) /\ is_Some (d7 r) /\ is_Some (d30 r)) /\
  ((2 <= length files)%nat ->
   map_Forall (fun _ f => file_ok f) (daily d) ->
   exists r1 r7 r30,
     retention files d = Some (mkRetention (Some r1) (Some r7) (Some r30)) /\
     js_nth files 1 = Some (cohortDate r1) /\
     js_nth files (Z.min 7 (Z.of_nat (length files) - 1)) = Some (cohortDate r7) /\
     js_nth files (Z.min 30 (Z.of_nat (length files) - 1)) = Some (cohortDate r30) /\
     js_nth files 0 = Some (returnDate r1) /\
     returnDate r7 = returnDate r1 /\ returnDate r30 = returnDate r1) /\
  ((length files < 8)%nat -> d7 (calculateRetention files counted) = None) /\
  ((length files < 31)%nat -> d30 (calculateRetention files counted) = None) /\
  (forall f0 fk c0 ck,
     js_nth files 0 = Some f0 -> counted !! f0 = Some c0 -> counted !! fk = Some ck ->
     (js_nth files 1 = Some fk ->
      d1 (calculateRetention files counted)
      = Some (mkCohortRecord fk (day_count ck) f0 None)) /\
     (js_nth files 7 = Some fk ->
      d7 (calculateRetention files counted)
      = Some (mkCohortRecord fk (day_count ck) f0 None)) /\
     (js_nth files 30 = Some fk ->
      d30 (calculateRetention files counted)
      = Some (mkCohortRecord fk (day_count ck) f0 None))).
Proof.
  split; [|split; [|split; [|split; [|split]]]].
  - intros Hlen. unfold retention, calculateRetention.
    destruct (Z.leb_spec 2 (Z.of_nat (length files))); [lia|].
    destruct (Z.leb_spec 8 (Z.of_nat (length files))); [lia|].
    destruct (Z.leb_spec 31 (Z.of_nat (length files))); [lia|].
    split; reflexivity.
  - intros Hlen r. unfold retention.
    destruct (Z.leb_spec 2 (Z.of_nat (length files))); [|lia].
    destruct (calcRetention files d 1 0) as [[e1|]|] eqn:E1; simpl; try discriminate.
    2:{ exfalso. revert E1. apply calcRetention_in_range; lia. }
    destruct (calcRetention files d (Z.min 7 _) 0) as [[e7|]|] eqn:E7;
      simpl; try discriminate.
    2:{ exfalso. revert E7. apply calcRetention_in_range; lia. }
    destruct (calcRetention files d (Z.min 30 _) 0) as [[e30|]|] eqn:E30;
      simpl; try discriminate.
    2:{ exfalso. revert E30. apply calcRetention_in_range; lia. }
    intros Hr. inversion Hr; subst; simpl. eauto.
  - intros Hlen Hd.
    destruct (calcRetention_entry files d 1 Hd) as (r1 & E1 & Hc1 & Hr1); [lia|].
    destruct (calcRetention_entry files d (Z.min 7 (Z.of_nat (length files) - 1)) Hd)
      as (r7 & E7 & Hc7 & Hr7); [lia|].
    destruct (calcRetention_entry files d (Z.min 30 (Z.of_nat (length files) - 1)) Hd)
      as (r30 & E30 & Hc30 & Hr30); [lia|].
    exists r1, r7, r30. split.
    { unfold retention. cbv zeta.
      destruct (Z.leb_spec 2 (Z.of_nat (length files))); [|lia].
      rewrite E1, E7, E30. reflexivity. }
    repeat split; try assumption; congruence.
  - intros Hlen. unfold calculateRetention. simpl.
    destruct (Z.leb_spec 8 (Z.of_nat (length files))); [lia | reflexivity].
  - intros Hlen. unfold calculateRetention. simpl.
    destruct (Z.leb_spec 31 (Z.of_nat (length files))); [lia | reflexivity].
  - intros f0 fk c0 ck H0 Hc0 Hck.
    unfold calculateRetention. cbv zeta. cbn [d1 d7 d30]. rewrite H0.
    repeat split; intros Hk; pose proof (js_nth_Some _ _ _ Hk) as Hi; rewrite Hk;
      unfold field, calculateRetentionRate; cbn [from_option id]; rewrite Hck, Hc0.
    + destruct (Z.leb_spec 2 (Z.of_nat (length files))); [reflexivity | lia].
    + destruct (Z.leb_spec 8 (Z.of_nat (length files))); [reflexivity | lia].
    + destruct (Z.leb_spec 31 (Z.of_nat (length files))); [reflexivity | lia].
Qed.

Lemma retention_entries_by_history_witness :
  (2 <= length ["2025-01-15"; "2025-01-14"]%string)%nat /\
  map_Forall (fun _ f => file_ok f) (daily (lib := Toy.toy) Toy.twoDays) /\
  exists r1 r7 r30,
    retention (lib := Toy.toy) ["2025-01-15"; "2025-01-14"]%string Toy.twoDays
    = Some (mkRetention (Some r1) (Some r7) (Some r30)) /\
    js_nth ["2025-01-15"; "2025-01-14"]%string 1 = Some (cohortDate r1) /\
    js_nth ["2025-01-15"; "2025-01-14"]%string 1 = Some (cohortDate r7).
Proof.
  assert (Hlen : (2 <= length ["2025-01-15"; "2025-01-14"]%string)%nat)
    by (simpl; lia).
  assert (Hd : map_Forall (fun _ f => file_ok f) (daily (lib := Toy.toy) Toy.twoDays)).
  { unfold Toy.twoDays, saveDailyData. cbn [daily Toy.emptyDisk].
    apply map_Forall_insert_2; [split; reflexivity|].
    apply map_Forall_insert_2; [split; reflexivity|].
    apply map_Forall_empty. }
  split; [exact Hlen|]. split; [exact Hd|].
  destruct (proj1 (proj2 (proj2 (@retention_entries_by_history Toy.toy
                     ["2025-01-15"; "2025-01-14"]%string Toy.twoDays ∅))) Hlen Hd)
    as (r1 & r7 & r30 & Hr & H1 & H7 & _).
  exists r1, r7, r30. split; [exact Hr|]. split; [exact H1 | exact H7].
Defined.

(** * Further properties of the code

    ** Arrays and the update of one register *)

Lemma js_get_in (arr : list jsnum) (i : Z) (x : jsnum) :
  0 <= i -> arr !! Z.to_nat i = Some x -> js_get arr i = x.
Proof.
  intros Hi Hx. unfold js_get.
  destruct (Z.ltb_spec i 0); [lia|]. now rewrite Hx.
Qed.

Lemma js_set_lookup_same (arr : list jsnum) (i : Z) (x : jsnum) :
  js_set arr i x !! Z.to_nat i = Some x.
Proof.
  unfold js_set. destruct (Nat.ltb_spec (Z.to_nat i) (length arr)) as [Hlt|Hge].
  - now apply list_lookup_insert_eq.
  - rewrite lookup_app_r by lia.
    rewrite lookup_app_r by (rewrite length_replicate; lia).
    rewrite length_replicate.
    now replace (Z.to_nat i - length arr - (Z.to_nat i - length arr))%nat with 0%nat by lia.
Qed.

Lemma js_set_length (arr : list jsnum) (i : Z) (x : jsnum) :
  length (js_set arr i x) = Nat.max (length arr) (S (Z.to_nat i)).
Proof.
  unfold js_set. destruct (Nat.ltb_spec (Z.to_nat i) (length arr)) as [Hlt|Hge].
  - rewrite length_insert. lia.
  - rewrite !length_app, length_replicate. simpl. lia.
Qed.

Lemma js_set_lookup_other (arr : list jsnum) (i : Z) (x : jsnum) (j : nat) :
  j <> Z.to_nat i -> (j < length arr)%nat -> js_set arr i x !! j = arr !! j.
Proof.
  intros Hne Hj. unfold js_set.
  destruct (Nat.ltb_spec (Z.to_nat i) (length arr)) as [Hlt|Hge].
  - now apply list_lookup_insert_ne.
  - now apply lookup_app_l.
Qed.

Lemma js_set_twice (arr : list jsnum) (i : Z) (x y : jsnum) :
  js_set (js_set arr i x) i y = js_set arr i y.
Proof.
  unfold js_set at 1.
  destruct (Nat.ltb_spec (Z.to_nat i) (length (js_set arr i x))) as [Hlt|Hge].
  2:{ rewrite js_set_length in Hge. lia. }
  unfold js_set.
  destruct (Nat.ltb_spec (Z.to_nat i) (length arr)) as [Hlt'|Hge'].
  - apply list_insert_insert_eq.
  - rewrite insert_app_r_alt by lia.
    rewrite insert_app_r_alt by (rewrite length_replicate; lia).
    rewrite length_replicate.
    now replace (Z.to_nat i - length arr - (Z.to_nat i - length arr))%nat with 0%nat by lia.
Qed.

Lemma registerIndex_nonneg (nb v : Z) : 0 <= v -> 0 <= registerIndex nb v.
Proof. intros Hv. unfold registerIndex. apply Z.land_nonneg. now left. Qed.

Lemma Math_max_absorb (a r : jsnum) : Math_max (Math_max a r) r = Math_max a r.
Proof. destruct a, r; simpl; try reflexivity. f_equal. lia. Qed.

Lemma Math_max_swap (a r1 r2 : jsnum) :
  Math_max (Math_max a r1) r2 = Math_max (Math_max a r2) r1.
Proof. destruct a, r1, r2; simpl; try reflexivity. f_equal. lia. Qed.

(** X1: adding the same element a second time changes nothing, whatever
    the estimator: the register array after two additions is the one after
    the first. *)
Theorem customHllUpdate_twice `{lib : Library} (h : HLL) (e : element) :
  customHllUpdate h e ≫= (fun h1 => customHllUpdate h1 e) = customHllUpdate h e.
Proof.
  destruct (customHllUpdate_digest e) as (v & Hv & Hrange).
  unfold customHllUpdate. rewrite Hv. cbn.
  set (i := registerIndex (_nbBytesPerHash h) v).
  set (r := Num (rho (_nbBytesPerHash h) v)).
  assert (Hi : 0 <= i) by (apply registerIndex_nonneg; lia).
  rewrite (js_get_in _ i _ Hi (js_set_lookup_same _ _ _)).
  now rewrite js_set_twice, Math_max_absorb.
Qed.

Lemma fits_spec (h : HLL) :
  fits h = true <->
  0 <= _nbBytesPerHash h /\ 2 ^ _nbBytesPerHash h <= Z.of_nat (length (_registers h)).
Proof. unfold fits. now rewrite andb_true_iff, !Z.leb_le. Qed.

Lemma registerIndex_fits (h : HLL) (v : Z) :
  fits h = true ->
  0 <= registerIndex (_nbBytesPerHash h) v < Z.of_nat (length (_registers h)).
Proof.
  intros Hf. apply fits_spec in Hf as [Hnb Hlen].
  rewrite registerIndex_mod by assumption.
  assert (0 < 2 ^ _nbBytesPerHash h) by (apply Z.pow_pos_nonneg; lia).
  pose proof (Z.mod_pos_bound v (2 ^ _nbBytesPerHash h)). lia.
Qed.

Lemma js_set_in (arr : list jsnum) (i : Z) (x : jsnum) :
  0 <= i < Z.of_nat (length arr) -> js_set arr i x = <[Z.to_nat i := x]> arr.
Proof.
  intros Hi. unfold js_set.
  destruct (Nat.ltb_spec (Z.to_nat i) (length arr)); [reflexivity | lia].
Qed.

Lemma js_get_set_other (arr : list jsnum) (i j : Z) (x : jsnum) :
  0 <= i < Z.of_nat (length arr) -> 0 <= j -> i <> j ->
  js_get (js_set arr i x) j = js_get arr j.
Proof.
  intros Hi Hj Hne. unfold js_get. destruct (Z.ltb_spec j 0); [lia|].
  rewrite js_set_in by assumption.
  rewrite list_lookup_insert_ne by lia. reflexivity.
Qed.

(** X2: on an estimator whose index field fits its register array, two
    additions commute: the order in which two elements are added does not
    affect the result. *)
Theorem customHllUpdate_commutes `{lib : Library} (h : HLL) (e1 e2 : element) :
  fits h = true ->
  customHllUpdate h e1 ≫= (fun h1 => customHllUpdate h1 e2)
  = customHllUpdate h e2 ≫= (fun h2 => customHllUpdate h2 e1).
Proof.
  intros Hf.
  destruct (customHllUpdate_digest e1) as (v1 & Hv1 & Hr1).
  destruct (customHllUpdate_digest e2) as (v2 & Hv2 & Hr2).
  unfold customHllUpdate. rewrite Hv1, Hv2. cbn [mbind option_bind].
  cbn [_registers _nbBytesPerHash set_registers].
  pose proof (registerIndex_fits h v1 Hf) as Hi1.
  pose proof (registerIndex_fits h v2 Hf) as Hi2.
  set (i1 := registerIndex (_nbBytesPerHash h) v1) in *.
  set (i2 := registerIndex (_nbBytesPerHash h) v2) in *.
  set (r1 := Num (rho (_nbBytesPerHash h) v1)).
  set (r2 := Num (rho (_nbBytesPerHash h) v2)).
  do 2 f_equal.
  destruct (Z.eq_dec i1 i2) as [Heq|Hne].
  - rewrite <- Heq.
    rewrite !(js_get_in _ i1 _ (proj1 Hi1) (js_set_lookup_same _ _ _)).
    rewrite !js_set_twice. f_equal. apply Math_max_swap.
  - rewrite (js_get_set_other _ i1 i2) by (lia || assumption).
    rewrite (js_get_set_other _ i2 i1) by (lia || assumption).
    rewrite (js_set_in (_registers h) i1), (js_set_in (_registers h) i2) by lia.
    rewrite !js_set_in by (rewrite length_insert; lia).
    apply list_insert_insert_ne. lia.
Qed.

Lemma customHllUpdate_commutes_witness :
  fits (HyperLogLog_new HLL_REGISTERS) = true /\
  customHllUpdate (lib := Toy.toy) (HyperLogLog_new HLL_REGISTERS) (EStr "alice")
    ≫= (fun h1 => customHllUpdate (lib := Toy.toy) h1 (EStr "bob"))
  = customHllUpdate (lib := Toy.toy) (HyperLogLog_new HLL_REGISTERS) (EStr "bob")
    ≫= (fun h2 => customHllUpdate (lib := Toy.toy) h2 (EStr "alice")).
Proof.
  split; [reflexivity|].
  apply (@customHllUpdate_commutes Toy.toy (HyperLogLog_new HLL_REGISTERS)
           (EStr "alice") (EStr "bob")).
  reflexivity.
Defined.

(** X3: an addition never lowers a register and never turns a number into
    something else: every slot that held a number holds a number at least
    as large afterwards, equal to the old one or to the rank just computed,
    and the array does not shrink. *)
Theorem customHllUpdate_registers_grow `{lib : Library} (h h' : HLL) (e : element) :
  customHllUpdate h e = Some h' ->
  (length (_registers h) <= length (_registers h'))%nat /\
  _nbBytesPerHash h' = _nbBytesPerHash h /\
  forall (j : nat) (z : Z),
    _registers h !! j = Some (Num z) ->
    exists z', _registers h' !! j = Some (Num z') /\ z <= z' /\
               (z' = z \/ exists v, hashTo64BigInt (blake3 (element_bytes e)) = Some v
                                    /\ z' = rho (_nbBytesPerHash h) v).
Proof.
  intros Hup.
  destruct (customHllUpdate_digest e) as (v & Hv & Hrange).
  unfold customHllUpdate in Hup. rewrite Hv in Hup. cbv zeta in Hup.
  inversion Hup; subst; clear Hup. cbn [_registers _nbBytesPerHash set_registers].
  set (i := registerIndex (_nbBytesPerHash h) v).
  assert (Hi : 0 <= i) by (apply registerIndex_nonneg; lia).
  split; [rewrite js_set_length; lia|]. split; [reflexivity|].
  intros j z Hj.
  destruct (decide (j = Z.to_nat i)) as [->|Hne].
  - rewrite js_set_lookup_same, (js_get_in _ i _ Hi Hj). simpl.
    eexists. split; [reflexivity|]. split; [lia|].
    destruct (Z.max_spec z (rho (_nbBytesPerHash h) v)) as [[_ ->]|[_ ->]]; eauto.
  - rewrite js_set_lookup_other; [|assumption|now apply lookup_lt_Some in Hj].
    exists z. split; [assumption|]. split; [lia | now left].
Qed.

Lemma customHllUpdate_registers_grow_witness :
  exists h',
    customHllUpdate (lib := Toy.toy) Toy.dayA (EStr "alice") = Some h' /\
    exists z', _registers h' !! 3%nat = Some (Num z') /\ 2 <= z'.
Proof.
  destruct (customHllUpdate_total (lib := Toy.toy) Toy.dayA (EStr "alice")) as [h' Hh'].
  exists h'. split; [exact Hh'|].
  destruct (@customHllUpdate_registers_grow Toy.toy _ _ _ Hh') as (_ & _ & Hgrow).
  destruct (Hgrow 3%nat 2 eq_refl) as (z' & Hz' & Hle & _).
  exists z'. split; assumption.
Defined.

(** X4: when the register index falls past the end of the array (an index
    field too wide for the array, of at most 31 bits so that the index is
    an array index below [2^31]), the addition does not fail: the array
    grows to hold the index, the old slots are kept, and the new slot
    holds [NaN]. *)
Theorem customHllUpdate_past_the_end `{lib : Library} (h : HLL) (e : element) (v : Z) :
  0 <= _nbBytesPerHash h <= 31 ->
  hashTo64BigInt (blake3 (element_bytes e)) = Some v ->
  Z.of_nat (length (_registers h)) <= registerIndex (_nbBytesPerHash h) v ->
  exists h',
    customHllUpdate h e = Some h' /\
    Z.of_nat (length (_registers h')) = registerIndex (_nbBytesPerHash h) v + 1 /\
    take (length (_registers h)) (_registers h') = _registers h /\
    js_get (_registers h') (registerIndex (_nbBytesPerHash h) v) = NaN /\
    registerIndex (_nbBytesPerHash h) v < 2 ^ 31.
Proof.
  intros Hnb Hv Hout.
  assert (Hidx : registerIndex (_nbBytesPerHash h) v < 2 ^ 31).
  { rewrite registerIndex_mod by lia.
    pose proof (Z.mod_pos_bound v (2 ^ _nbBytesPerHash h)) as Hm.
    assert (2 ^ _nbBytesPerHash h <= 2 ^ 31) by (apply Z.pow_le_mono_r; lia).
    lia. }
  unfold customHllUpdate. rewrite Hv. cbv zeta.
  set (i := registerIndex (_nbBytesPerHash h) v) in *.
  assert (Hi : 0 <= i) by lia.
  eexists. split; [reflexivity|]. cbn [_registers set_registers].
  assert (Hget : js_get (_registers h) i = Undefined).
  { unfold js_get. destruct (Z.ltb_spec i 0); [lia|].
    rewrite lookup_ge_None_2 by lia. reflexivity. }
  rewrite Hget. cbn [Math_max].
  split; [rewrite js_set_length; lia|]. split; [|split; [|exact Hidx]].
  - unfold js_set. destruct (Nat.ltb_spec (Z.to_nat i) (length (_registers h))); [lia|].
    now rewrite take_app_length.
  - apply js_get_in; [assumption | apply js_set_lookup_same].
Qed.

Lemma customHllUpdate_past_the_end_witness :
  exists h',
    customHllUpdate (lib := Toy.toy) (mkHLL 4 10 [Num 0; Num 0; Num 0; Num 0])
      (EBytes [x00; x00; x00; x00; x00; x00; x00; x05]) = Some h' /\
    Z.of_nat (length (_registers h')) = 5 + 1 /\
    js_get (_registers h') 5 = NaN.
Proof.
  destruct (@customHllUpdate_past_the_end Toy.toy
              (mkHLL 4 10 [Num 0; Num 0; Num 0; Num 0])
              (EBytes [x00; x00; x00; x00; x00; x00; x00; x05]) 5)
    as (h' & Hup & Hlen & _ & Hnan & _).
  - simpl. lia.
  - reflexivity.
  - vm_compute. discriminate.
  - exists h'. split; [exact Hup|]. split; [exact Hlen | exact Hnan].
Defined.

(** ** The digest value and the rank *)

Lemma lor_shift_byte_add (v b : Z) :
  0 <= v -> 0 <= b < 256 -> Z.lor (Z.shiftl v 8) b = v * 256 + b.
Proof.
  intros Hv Hb.
  assert (Hland : Z.land (Z.shiftl v 8) b = 0).
  { apply Z.bits_inj'. intros n Hn. rewrite Z.land_spec, Z.bits_0.
    destruct (Z.lt_ge_cases n 8) as [Hlt|Hge].
    - rewrite Z.shiftl_spec_low by assumption. reflexivity.
    - rewrite andb_comm.
      destruct (Z.eq_dec b 0) as [->|Hne]; [now rewrite Z.bits_0|].
      rewrite Z.bits_above_log2; [reflexivity | lia |].
      assert (Z.log2 b < 8) by (apply Z.log2_lt_pow2; lia). lia. }
  rewrite <- Z.lxor_lor by assumption.
  rewrite <- Z.add_nocarry_lxor by assumption.
  rewrite Z.shiftl_mul_pow2 by lia. reflexivity.
Qed.

Lemma hash_loop_value (n : nat) : forall (i : nat) (bytes : list byte) (v : Z),
  0 <= v -> (i + n <= length bytes)%nat ->
  hash_loop n i bytes v
  = Some (foldl (fun acc b => acc * 256 + byte_to_Z b) v (take n (drop i bytes))).
Proof.
  induction n as [|n IH]; intros i bytes v Hv Hlen; simpl.
  - reflexivity.
  - destruct (lookup_lt_is_Some_2 bytes i) as [b Hb]; [lia|].
    rewrite Hb. pose proof (byte_to_Z_range b) as Hbr.
    rewrite lor_shift_byte_add by assumption.
    rewrite IH by (lia || nia).
    rewrite (drop_S _ _ _ Hb). reflexivity.
Qed.

Lemma hash_loop_short (n : nat) : forall (i : nat) (bytes : list byte) (v : Z),
  (i <= length bytes < i + n)%nat -> hash_loop n i bytes v = None.
Proof.
  induction n as [|n IH]; intros i bytes v Hlen; simpl.
  - lia.
  - destruct (bytes !! i) as [b|] eqn:Hb; [|reflexivity].
    apply lookup_lt_Some in Hb. apply IH. lia.
Qed.

(** X5: the digest value is read from the first eight bytes, most
    significant first, and from nothing else; a digest shorter than eight
    bytes makes the conversion throw. *)
Theorem hashTo64BigInt_big_endian (bytes : list byte) :
  ((length bytes < 8)%nat -> hashTo64BigInt bytes = None) /\
  ((8 <= length bytes)%nat ->
   hashTo64BigInt bytes = Some (be_value (take 8 bytes)) /\
   0 <= be_value (take 8 bytes) < 2 ^ 64 /\
   forall rest, hashTo64BigInt (take 8 bytes ++ rest) = hashTo64BigInt bytes).
Proof.
  split.
  - intros Hlen. apply hash_loop_short. lia.
  - intros Hlen.
    assert (Hval : hashTo64BigInt bytes = Some (be_value (take 8 bytes))).
    { unfold hashTo64BigInt. rewrite hash_loop_value by lia. now rewrite drop_0. }
    split; [exact Hval|]. split; [now apply hashTo64BigInt_range in Hval|].
    intros rest. rewrite Hval. unfold hashTo64BigInt.
    rewrite hash_loop_value; [|lia|rewrite length_app, length_take; lia].
    rewrite drop_0. unfold be_value. do 2 f_equal.
    rewrite take_app_le by (rewrite length_take; lia).
    apply take_take.
Qed.

Lemma hashTo64BigInt_big_endian_witness :
  hashTo64BigInt [x01; x02; x03; x04; x05; x06; x07; x08; xff]
  = Some (be_value [x01; x02; x03; x04; x05; x06; x07; x08]) /\
  hashTo64BigInt [x01; x02; x03] = None.
Proof.
  split.
  - apply (proj2 (hashTo64BigInt_big_endian
                    [x01; x02; x03; x04; x05; x06; x07; x08; xff])).
    repeat constructor.
  - apply (proj1 (hashTo64BigInt_big_endian [x01; x02; x03])).
    repeat constructor.
Defined.

(** X6: with an index field of fewer than 63 bits, the rank is 1 exactly
    when the top bit of the 64-bit value is set, and it reaches the width
    [k] of the remainder field exactly when the remainder is 0 or 1: the
    code gives the all-zero remainder the same rank as the remainder 1. *)
Theorem rho_extremes (nb v : Z) :
  0 <= v < 2 ^ 64 -> 0 <= nb < 63 ->
  (rho nb v = 1 <-> 2 ^ 63 <= v) /\
  (rho nb v = 64 - nb <-> v / 2 ^ nb <= 1).
Proof.
  intros Hv Hnb. rewrite rho_closed_form by assumption.
  assert (Hs : 0 <= Z.shiftr v nb < 2 ^ (64 - nb)) by (apply shiftr_range; lia).
  rewrite Z.shiftr_div_pow2 in * by lia.
  set (r := v / 2 ^ nb) in *.
  assert (Hp : 0 < 2 ^ nb) by (apply Z.pow_pos_nonneg; lia).
  assert (Htop : 2 ^ 63 <= v <-> 2 ^ (63 - nb) <= r).
  { replace (2 ^ 63) with (2 ^ (63 - nb) * 2 ^ nb)
      by (rewrite <- Z.pow_add_r by lia; f_equal; lia).
    unfold r. split; intros H.
    - apply Z.div_le_lower_bound; lia.
    - pose proof (Z.mul_div_le v (2 ^ nb) Hp). nia. }
  destruct (Z.eqb_spec r 0) as [Hz|Hnz].
  - split.
    + split; [lia|]. intros H. apply Htop in H.
      assert (0 < 2 ^ (63 - nb)) by (apply Z.pow_pos_nonneg; lia). lia.
    + split; [lia | reflexivity].
  - assert (Hlog : 0 <= Z.log2 r) by apply Z.log2_nonneg.
    assert (Hlt : Z.log2 r < 64 - nb) by (apply Z.log2_lt_pow2; lia).
    split.
    + rewrite Htop. split; intros H.
      * apply Z.log2_le_pow2; lia.
      * apply Z.log2_le_pow2 in H; lia.
    + split; intros H.
      * assert (Hl0 : Z.log2 r = 0) by lia.
        destruct (Z.le_gt_cases r 1) as [?|Hgt]; [assumption|].
        assert (0 < Z.log2 r) by (apply Z.log2_pos; lia). lia.
      * assert (Hr1 : r = 1) by lia. rewrite Hr1.
        change (Z.log2 1) with 0. lia.
Qed.

Lemma rho_extremes_witness :
  0 <= 1024 < 2 ^ 64 /\ 0 <= 10 < 63 /\
  (rho 10 1024 = 1 <-> 2 ^ 63 <= 1024) /\
  (rho 10 1024 = 64 - 10 <-> 1024 / 2 ^ 10 <= 1).
Proof.
  split; [vm_compute; split; [discriminate | reflexivity]|].
  split; [lia|].
  apply (rho_extremes 10 1024); [|lia].
  vm_compute. split; [discriminate | reflexivity].
Defined.

(** ** The nonce map *)

(** X7: the interval callback removes exactly the entries older than the
    window: an entry is in the map afterwards if and only if it was there
    before and [now - timestamp <= NONCE_WINDOW_MS].  Running it again at
    the same time changes nothing more. *)
Theorem sweep_keeps_exactly_recent (now : Z) (m : gmap string Z) :
  (forall (n : string) (ts : Z),
      sweep now m !! n = Some ts <->
      m !! n = Some ts /\ now - ts <= NONCE_WINDOW_MS) /\
  sweep now (sweep now m) = sweep now m.
Proof.
  assert (Hchar : forall (m0 : gmap string Z) (n : string) (ts : Z),
      sweep now m0 !! n = Some ts <->
      m0 !! n = Some ts /\ now - ts <= NONCE_WINDOW_MS).
  { intros m0 n ts. rewrite sweep_lookup.
    destruct (m0 !! n) as [t|]; [|split; [discriminate | intros [? _]; discriminate]].
    destruct (Z.gtb_spec (now - t) NONCE_WINDOW_MS) as [Hgt|Hle].
    - split; [discriminate|]. intros [Heq Hle]. inversion Heq; subst. lia.
    - split; [intros Heq; inversion Heq; subst; auto | intros [Heq _]; exact Heq]. }
  split; [apply Hchar|].
  apply map_eq. intros n. apply option_eq. intros ts.
  rewrite !Hchar. tauto.
Qed.

Section RunProperties.
Context `{lib : Library}.

Lemma run_events_invariant (P : Store -> Prop) :
  (forall s e, P s -> P (step_event s e)) ->
  forall evs s, P s -> P (run_events evs s).
Proof.
  intros Hstep evs. induction evs as [|e evs IH]; intros s Hs; simpl.
  - exact Hs.
  - apply IH, Hstep, Hs.
Qed.

Lemma customHllUpdate_ok (h h' : HLL) (e : element) :
  hll_ok HLL_REGISTERS h = true -> customHllUpdate h e = Some h' ->
  hll_ok HLL_REGISTERS h' = true.
Proof.
  intros Hok Hup.
  destruct (customHllUpdate_keeps_ok HLL_REGISTERS h e)
    as (v & h'' & _ & Hup' & _ & _ & _ & Hok'); try reflexivity; try assumption.
  congruence.
Qed.

Lemma post_ingest_store_ok now dk req s :
  store_ok s -> store_ok (post_ingest now dk req s).1.2.
Proof.
  intros [Hall Hd].
  destruct (post_ingest_case now dk req s) as
    [Hm|Hm Hs|Hm Hs Hu|Hm Hs Hu Hv|all' dh nh Hm Hs Hu Hv Ha Hday Hnew];
    simpl; try (split; assumption).
  destruct (getDailyData_ok dk (disk s) Hd) as [Hh Hn].
  split; simpl.
  - exact (customHllUpdate_ok _ _ _ Hall Ha).
  - apply map_Forall_insert_2; [|exact Hd].
    split; simpl; [exact (customHllUpdate_ok _ _ _ Hh Hday)|].
    destruct (negb (bloom_has _ _)).
    + exact (customHllUpdate_ok _ _ _ Hn Hnew).
    + inversion Hnew; subst. exact Hn.
Qed.

End RunProperties.

(** X8: every estimator the server holds, the global one in memory and
    the two of each daily file, stays in the constructor's shape (1024
    numeric registers, ranks at most 54) through any sequence of handled
    requests and sweeps. *)
Theorem estimators_keep_their_shape `{lib : Library} (evs : list Event) (s : Store) :
  store_ok s -> store_ok (run_events evs s).
Proof.
  revert s. apply (run_events_invariant store_ok).
  intros s [now|now dk req] Hs; simpl.
  - exact Hs.
  - now apply post_ingest_store_ok.
Qed.

Lemma estimators_keep_their_shape_witness :
  store_ok (lib := Toy.toy) Toy.store0 /\
  store_ok (lib := Toy.toy)
    (run_events [EvIngest 1000 "2025-01-15" (Toy.ping "abc" "1000"); EvSweep 30000]
       Toy.store0).
Proof.
  assert (H0 : store_ok (lib := Toy.toy) Toy.store0).
  { split; [reflexivity | apply map_Forall_empty]. }
  split; [exact H0|].
  apply (@estimators_keep_their_shape Toy.toy _ Toy.store0 H0).
Defined.



(** X10: given a filter without false negatives (an added identifier
    tests positive, and stays so when others are added), a public key
    whose ping was accepted once is never again reported as a new user:
    whatever is handled in between, a later accepted ping with the same
    key answers [newUser = false] and leaves the day's new-users estimator
    as it was. *)
Theorem returning_key_is_not_new `{lib : Library}
    (now1 now2 : Z) (dk1 dk2 : string) (req1 req2 : Request) (s s1 s2 : Store)
    (d1 d2 : string) (nu1 nu2 : bool) (dau1 dau2 : Q) (t1 t2 : list Step)
    (evs : list Event) :
  (forall b x, bloom_has (bloom_add b x) x = true) ->
  (forall b x y, bloom_has b x = true -> bloom_has (bloom_add b y) x = true) ->
  post_ingest now1 dk1 req1 s = (Accepted d1 nu1 dau1, s1, t1) ->
  publicKey req2 = publicKey req1 ->
  post_ingest now2 dk2 req2 (run_events evs s1) = (Accepted d2 nu2 dau2, s2, t2) ->
  nu2 = false /\
  newUsersHll (getDailyData dk2 (disk s2))
  = newUsersHll (getDailyData dk2 (disk (run_events evs s1))).
Proof.
  intros Hadd Hmono Hrun1 Hpk Hrun2.
  set (x := userHashOf (field (publicKey req1))).
  assert (Hseen1 : bloom_has (allBloom s1) x = true).
  { destruct (post_ingest_case now1 dk1 req1 s) as
      [?|? ?|? ? ?|? ? ? ?|all' dh nh _ _ _ _ _ _ _]; try discriminate Hrun1.
    inversion Hrun1; subst. simpl. apply Hadd. }
  assert (Hseen : bloom_has (allBloom (run_events evs s1)) x = true).
  { revert Hseen1. generalize s1.
    apply (run_events_invariant (fun s => bloom_has (allBloom s) x = true)).
    intros s0 [now|now dk req] H0; simpl; [exact H0|].
    destruct (post_ingest_case now dk req s0) as
      [?|? ?|? ? ?|? ? ? ?|all' dh nh _ _ _ _ _ _ _]; simpl; try exact H0.
    now apply Hmono. }
  destruct (post_ingest_case now2 dk2 req2 (run_events evs s1)) as
    [?|? ?|? ? ?|? ? ? ?|all' dh nh _ _ _ _ _ _ Hnew]; try discriminate Hrun2.
  rewrite Hpk in Hrun2, Hnew. fold x in Hrun2, Hnew.
  rewrite Hseen in Hrun2, Hnew. simpl in Hnew.
  inversion Hrun2; subst. split; [reflexivity|].
  inversion Hnew; subst. unfold accepted_store, getDailyData at 1. simpl.
  rewrite lookup_insert_eq. reflexivity.
Qed.

Lemma returning_key_is_not_new_witness :
  let run1 := post_ingest (lib := Toy.toy) 1000 "2025-01-15"
                (Toy.ping "abc" "1000") Toy.store0 in
  let mid := run_events (lib := Toy.toy) [EvSweep 30000] run1.1.2 in
  let run2 := post_ingest (lib := Toy.toy) 40000 "2025-01-15"
                (Toy.ping "def" "40000") mid in
  run1 = (Accepted "2025-01-15" true 1, run1.1.2, run1.2) /\
  run2 = (Accepted "2025-01-15" false 1, run2.1.2, run2.2).
Proof.
  intros run1 mid run2.
  assert (H1 : run1 = (Accepted "2025-01-15" true 1, run1.1.2, run1.2))
    by (vm_compute; reflexivity).
  split; [exact H1|].
  assert (H2 : exists nu, run2 = (Accepted "2025-01-15" nu 1, run2.1.2, run2.2)).
  { exists false. vm_compute. reflexivity. }
  destruct H2 as [nu H2].
  assert (Hnu : nu = false).
  { refine (proj1 (@returning_key_is_not_new Toy.toy 1000 40000 "2025-01-15"%string
                     "2025-01-15"%string (Toy.ping "abc" "1000") (Toy.ping "def" "40000")
                     Toy.store0 run1.1.2 run2.1.2 _ _ _ nu _ _ run1.2 run2.2
                     [EvSweep 30000] _ _ H1 eq_refl H2)).
    - intros b x. apply bool_decide_eq_true. apply list_elem_of_here.
    - intros b x y Hx. apply bool_decide_eq_true. apply list_elem_of_further.
      now apply bool_decide_eq_true in Hx. }
  subst nu. exact H2.
Defined.

(** X11: the freshness check compares with [NaN] when the timestamp does
    not parse as a number, and the comparison is false: such a request is
    never rejected as stale.  If it is otherwise valid it is accepted at
    any time, and once a sweep has removed its nonce (any sweep later than
    the window after acceptance) the very same request is accepted
    again. *)
Theorem unparsable_timestamp_is_replayable `{lib : Library}
    (req : Request) (now : Z) (dk : string) (s : Store) :
  missing req = false ->
  parseInt (field (timestamp req)) = None ->
  verifies (message_of req) (field (signature req)) (field (publicKey req)) = true ->
  usedNonces s !! field (nonce req) = None ->
  exists newUser dau s1 t,
    post_ingest now dk req s = (Accepted dk newUser dau, s1, t) /\
    forall (sweepTime now2 : Z) (dk2 : string),
      now + NONCE_WINDOW_MS < sweepTime ->
      exists newUser2 dau2 s2 t2,
        post_ingest now2 dk2 req (step_event s1 (EvSweep sweepTime))
        = (Accepted dk2 newUser2 dau2, s2, t2).
Proof.
  intros Hm Hts Hv Hn.
  assert (Hfresh : forall t, stale t (parseInt (field (timestamp req))) = false)
    by (intros t; now rewrite Hts).
  apply has_false in Hn.
  destruct (post_ingest_case now dk req s) as
    [?|? Hs|? ? ?|? ? ? ?|all' dh nh _ _ _ _ _ _ _];
    [congruence | rewrite Hfresh in Hs; discriminate | congruence | congruence |].
  eexists _, _, _, _. split; [reflexivity|].
  intros sweepTime now2 dk2 Hlate.
  set (s1 := accepted_store now dk req s all' dh nh).
  assert (Hgone : has (usedNonces (step_event s1 (EvSweep sweepTime)))
                    (field (nonce req)) = false).
  { apply has_false. simpl. rewrite sweep_lookup, lookup_insert_eq.
    destruct (Z.gtb_spec (sweepTime - now) NONCE_WINDOW_MS); [reflexivity | lia]. }
  destruct (post_ingest_case now2 dk2 req (step_event s1 (EvSweep sweepTime))) as
    [?|? Hs|? ? ?|? ? ? ?|all2 dh2 nh2 _ _ _ _ _ _ _];
    [congruence | rewrite Hfresh in Hs; discriminate | congruence | congruence |].
  eexists _, _, _, _. reflexivity.
Qed.

Lemma unparsable_timestamp_is_replayable_witness :
  exists newUser dau s1 t,
    post_ingest (lib := Toy.toy) 1000 "2025-01-15" (Toy.ping "abc" "never") Toy.store0
    = (Accepted "2025-01-15" newUser dau, s1, t) /\
    exists newUser2 dau2 s2 t2,
      post_ingest (lib := Toy.toy) 999999999 "2025-03-01" (Toy.ping "abc" "never")
        (step_event s1 (EvSweep 90000))
      = (Accepted "2025-03-01" newUser2 dau2, s2, t2).
Proof.
  destruct (@unparsable_timestamp_is_replayable Toy.toy (Toy.ping "abc" "never")
              1000 "2025-01-15"%string Toy.store0 eq_refl eq_refl eq_refl eq_refl)
    as (nu & dau & s1 & t & Hrun & Hagain).
  exists nu, dau, s1, t. split; [exact Hrun|].
  apply (Hagain 90000 999999999 "2025-03-01"%string). reflexivity.
Defined.

(** X12: handling a request never removes or rewrites an entry of the
    nonce map; the only entry it can add is the request's own nonce,
    stamped with the current time. *)
Theorem ingest_only_adds_own_nonce `{lib : Library} (now : Z) (dk : string)
    (req : Request) (s : Store) :
  let after := usedNonces (post_ingest now dk req s).1.2 in
  (forall n t, usedNonces s !! n = Some t -> after !! n = Some t) /\
  (forall n, after !! n <> usedNonces s !! n ->
             n = field (nonce req) /\ usedNonces s !! n = None /\
             after !! n = Some now).
Proof.
  cbv zeta.
  destruct (post_ingest_case now dk req s) as
    [?|? ?|? ? ?|? ? ? ?|all' dh nh _ _ Hu _ _ _ _]; simpl;
    try (split; [auto | intros n Hn; congruence]).
  apply has_false in Hu. split.
  - intros n t Hn. rewrite lookup_insert_ne; [assumption | congruence].
  - intros n Hn. destruct (decide (field (nonce req) = n)) as [<-|Hne].
    + split; [reflexivity|]. split; [assumption | apply lookup_insert_eq].
    + rewrite lookup_insert_ne in Hn by assumption. congruence.
Qed.

(** ** Aggregates and the stats handler *)

(** X14: [updateAggregates] writes only the week and month files, and what
    it writes is the estimator it loaded: the day's registers do not enter
    (neither aggregate depends on the daily files), a missing aggregate is
    created with the empty estimator, and when both aggregate files exist
    the disk is left exactly as it was.  Running it again changes
    nothing. *)
Theorem updateAggregates_keeps_what_it_loaded `{lib : Library} (dateKey : string)
    (d d' : Disk) :
  updateAggregates dateKey d = Some d' ->
  daily d' = daily d /\ all_hll_json d' = all_hll_json d /\
  all_bf_json d' = all_bf_json d /\
  weekly d' = <[getWeekKey dateKey := loadHLL (weekly d !! getWeekKey dateKey)]> (weekly d) /\
  monthly d'
  = <[getMonthKey dateKey := loadHLL (monthly d !! getMonthKey dateKey)]> (monthly d) /\
  (is_Some (weekly d !! getWeekKey dateKey) ->
   is_Some (monthly d !! getMonthKey dateKey) -> d' = d) /\
  updateAggregates dateKey d' = Some d'.
Proof.
  unfold updateAggregates. cbv zeta.
  set (x := hll (getDailyData dateKey d)).
  set (w := loadHLL (weekly d !! getWeekKey dateKey)).
  destruct (hll_merge w x) as [w'|] eqn:Hw; [|discriminate].
  cbn [monthly weekly daily all_hll_json all_bf_json].
  set (m := loadHLL (monthly d !! getMonthKey dateKey)).
  destruct (hll_merge m x) as [m'|] eqn:Hm; [|discriminate].
  intros Hd. inversion Hd; subst d'; clear Hd.
  cbn [monthly weekly daily all_hll_json all_bf_json].
  split; [reflexivity|]. split; [reflexivity|]. split; [reflexivity|].
  split; [reflexivity|]. split; [reflexivity|]. split.
  - intros [w0 Hw0] [m0 Hm0]. subst w m. rewrite Hw0, Hm0. cbn [loadHLL from_option id].
    rewrite !insert_id by assumption. now destruct d.
  - change (hll (getDailyData dateKey
              {| daily := daily d; all_hll_json := all_hll_json d;
                 all_bf_json := all_bf_json d;
                 weekly := <[getWeekKey dateKey:=w]> (weekly d);
                 monthly := <[getMonthKey dateKey:=m]> (monthly d) |})) with x.
    rewrite !lookup_insert_eq. cbn [loadHLL from_option id].
    rewrite Hw, Hm. now rewrite !insert_insert_eq.
Qed.

Lemma updateAggregates_keeps_what_it_loaded_witness :
  exists d',
    updateAggregates (lib := Toy.toy) "2025-01-14" Toy.twoDays = Some d' /\
    daily d' = daily Toy.twoDays /\
    weekly d' = <["2025-01-14"%string := HyperLogLog_new HLL_REGISTERS]> ∅ /\
    updateAggregates (lib := Toy.toy) "2025-01-14" d' = Some d'.
Proof.
  assert (H : exists d', updateAggregates (lib := Toy.toy) "2025-01-14" Toy.twoDays = Some d').
  { vm_compute. eexists. reflexivity. }
  destruct H as [d' Hd']. exists d'. split; [exact Hd'|].
  destruct (@updateAggregates_keeps_what_it_loaded Toy.toy _ _ _ Hd')
    as (Hdaily & _ & _ & Hweek & _ & _ & Hagain).
  split; [exact Hdaily|]. split; [exact Hweek | exact Hagain].
Defined.

Section WindowFacts.
Context `{lib : Library}.

Lemma merge_window_later (days : list string) (d : Disk) : forall i j cur,
  merge_window (S i) days d cur = merge_window (S j) days d cur.
Proof.
  induction days as [|file rest IH]; intros i j cur; simpl; [reflexivity|].
  destruct cur as [w|]; [|reflexivity].
  destruct (hll_merge w _); [apply IH | reflexivity].
Qed.

(** After the first day, the loop of a window leaves the estimator it
    holds as it is. *)
Lemma merge_window_keeps (days : list string) (d : Disk) :
  map_Forall (fun _ f => file_ok f) (daily d) ->
  forall i w, hll_ok HLL_REGISTERS w = true ->
  merge_window (S i) days d (Some w) = Some (Some w).
Proof.
  intros Hd. induction days as [|file rest IH]; intros i w Hw; simpl; [reflexivity|].
  destruct (getDailyData_ok file d Hd) as [Hh _].
  destruct (hll_merge_ok _ _ _ Hw Hh) as [Hm _]. rewrite Hm.
  now apply IH.
Qed.

Lemma take_min_length (n : Z) (files : list string) :
  take (Z.to_nat (Z.min n (Z.of_nat (length files)))) files = take (Z.to_nat n) files.
Proof.
  destruct (Z.le_gt_cases n (Z.of_nat (length files))) as [Hle|Hgt].
  - now rewrite Z.min_l by assumption.
  - rewrite Z.min_r by lia. rewrite Nat2Z.id.
    rewrite !take_ge by lia. reflexivity.
Qed.

(** The window over a non-empty listing: the first day is copied, then
    the loop goes over the other days of the window. *)
Lemma windowHLL_cons (n : Z) (file : string) (rest : list string) (d : Disk) :
  0 < n ->
  windowHLL n (file :: rest) d
  = cur ← merge_window 1 (take (Z.to_nat n - 1) rest) d
            (Some (hll (getDailyData file d)));
    Some (default (HyperLogLog_new HLL_REGISTERS) cur).
Proof.
  intros Hn. unfold windowHLL.
  destruct (Z.ltb_spec 0 (Z.min n (Z.of_nat (length (file :: rest)))))
    as [_|Hno]; [|simpl length in Hno; lia].
  rewrite take_min_length.
  destruct (Z.to_nat n) as [|m] eqn:Hm; [lia|].
  simpl. now rewrite Nat.sub_0_r.
Qed.

Lemma windowHLL_value (n : Z) (files : list string) (d : Disk) :
  map_Forall (fun _ f => file_ok f) (daily d) -> 0 < n ->
  windowHLL n files d
  = Some (match files with
          | [] => HyperLogLog_new HLL_REGISTERS
          | file :: _ => hll (getDailyData file d)
          end).
Proof.
  intros Hd Hn. destruct files as [|file rest].
  - unfold windowHLL. simpl length. rewrite Z.min_r by lia. reflexivity.
  - rewrite windowHLL_cons by assumption.
    destruct (getDailyData_ok file d Hd) as [Hh _].
    rewrite (merge_window_keeps _ d Hd 0 _ Hh). reflexivity.
Qed.

Lemma calcRetention_total (files : list string) (d : Disk) (c r : Z) :
  map_Forall (fun _ f => file_ok f) (daily d) -> 0 <= c -> 0 <= r ->
  exists res, calcRetention files d c r = Some res.
Proof.
  intros Hd Hc Hr. unfold calcRetention.
  destruct (Z.leb_spec (Z.of_nat (length files)) (Z.max c r)); [eauto|].
  unfold js_nth. destruct (Z.ltb_spec c 0); [lia|]. destruct (Z.ltb_spec r 0); [lia|].
  destruct (lookup_lt_is_Some_2 files (Z.to_nat c)) as [cd Hcd]; [lia|].
  destruct (lookup_lt_is_Some_2 files (Z.to_nat r)) as [rd Hrd]; [lia|].
  rewrite Hcd, Hrd. cbv zeta.
  destruct (getDailyData_ok cd d Hd) as [HA _].
  destruct (getDailyData_ok rd d Hd) as [HB _].
  destruct (merge_into_fresh _ HA) as [u1 Hu1].
  destruct (merge_into_fresh _ HB) as [u2 Hu2].
  rewrite Hu1, Hu2. eauto.
Qed.

Lemma retention_total (files : list string) (d : Disk) :
  map_Forall (fun _ f => file_ok f) (daily d) ->
  exists r, retention files d = Some r.
Proof.
  intros Hd. unfold retention. cbv zeta.
  destruct (2 <=? Z.of_nat (length files)) eqn:Hlen; [|simpl; eauto].
  apply Z.leb_le in Hlen.
  destruct (calcRetention_total files d 1 0 Hd) as [e1 ->]; try lia.
  destruct (calcRetention_total files d (Z.min 7 (Z.of_nat (length files) - 1)) 0 Hd)
    as [e7 ->]; try lia.
  destruct (calcRetention_total files d (Z.min 30 (Z.of_nat (length files) - 1)) 0 Hd)
    as [e30 ->]; try lia.
  simpl. eauto.
Qed.

End WindowFacts.

(** X16: on daily files whose estimators have the constructor's shape,
    the weekly and the monthly window of the stats handler are built
    without an exception, and each is the estimator of the most recent
    day alone (the empty estimator when there is no day): the results of
    the [merge] calls over the other days are dropped.  So the response
    carries the same number for [wau] and [mau], which is the [dau] of
    its first row. *)
Theorem windows_hold_the_latest_day `{lib : Library} (files : list string)
    (s : Store) :
  store_ok s ->
  let latest := match files with
                | [] => HyperLogLog_new HLL_REGISTERS
                | file :: _ => hll (getDailyData file (disk s))
                end in
  windowHLL 7 files (disk s) = Some latest /\
  windowHLL 30 files (disk s) = Some latest /\
  exists r,
    get_stats files s = Some r /\
    stats_wau r = count latest /\ stats_mau r = count latest /\
    forall row, head (stats_recentDays r) = Some row -> row_dau row = stats_wau r.
Proof.
  intros [_ Hd] latest.
  pose proof (windowHLL_value 7 files (disk s) Hd) as Hwau.
  pose proof (windowHLL_value 30 files (disk s) Hd) as Hmau.
  fold latest in Hwau, Hmau.
  split; [apply Hwau; lia|]. split; [apply Hmau; lia|].
  unfold get_stats. cbv zeta. rewrite Hwau, Hmau by lia.
  destruct (retention_total files (disk s) Hd) as [r ->].
  simpl. eexists. split; [reflexivity|]. cbn [stats_wau stats_mau stats_recentDays].
  split; [reflexivity|]. split; [reflexivity|].
  intros row. unfold recentDays, latest. destruct files as [|file rest]; simpl.
  - discriminate.
  - intros Hrow. inversion Hrow; subst row. reflexivity.
Qed.

Lemma windows_hold_the_latest_day_witness :
  store_ok (lib := Toy.toy) (set_disk Toy.twoDays Toy.store0) /\
  windowHLL (lib := Toy.toy) 7 ["2025-01-15"; "2025-01-14"]%string Toy.twoDays
  = Some Toy.dayB /\
  windowHLL (lib := Toy.toy) 30 ["2025-01-15"; "2025-01-14"]%string Toy.twoDays
  = Some Toy.dayB.
Proof.
  assert (Hs : store_ok (lib := Toy.toy) (set_disk Toy.twoDays Toy.store0)).
  { split; [reflexivity|].
    unfold Toy.twoDays, saveDailyData, set_disk. cbn [daily disk Toy.emptyDisk].
    apply map_Forall_insert_2; [split; reflexivity|].
    apply map_Forall_insert_2; [split; reflexivity|].
    apply map_Forall_empty. }
  split; [exact Hs|].
  destruct (@windows_hold_the_latest_day Toy.toy ["2025-01-15"; "2025-01-14"]%string
              _ Hs) as (Hw & Hm & _).
  split; [exact Hw | exact Hm].
Defined.

(** X17: on a store whose estimators have the constructor's shape, GET
    /api/stats answers and never falls into its [catch]: no merge throws;
    the response lists one row for each of the 30 most recent files at
    most, in the order of the listing. *)
Theorem get_stats_answers `{lib : Library} (files : list string) (s : Store) :
  store_ok s ->
  exists r,
    get_stats files s = Some r /\
    stats_allTime r = count (allHLL s) /\
    map row_date (stats_recentDays r) = take 30 files.
Proof.
  intros [_ Hd]. unfold get_stats. cbv zeta.
  rewrite (windowHLL_value 7 files (disk s) Hd) by lia.
  rewrite (windowHLL_value 30 files (disk s) Hd) by lia.
  destruct (retention_total files (disk s) Hd) as [r ->].
  simpl. eexists. split; [reflexivity|]. split; [reflexivity|].
  simpl. unfold recentDays. rewrite map_map. simpl. apply map_id.
Qed.

Lemma get_stats_answers_witness :
  exists r,
    get_stats (lib := Toy.toy) ["2025-01-15"; "2025-01-14"]%string
      (set_disk Toy.twoDays Toy.store0) = Some r /\
    map row_date (stats_recentDays r) = ["2025-01-15"; "2025-01-14"]%string.
Proof.
  assert (Hs : store_ok (lib := Toy.toy) (set_disk Toy.twoDays Toy.store0)).
  { split; [reflexivity|].
    unfold Toy.twoDays, saveDailyData, set_disk. cbn [daily disk Toy.emptyDisk].
    apply map_Forall_insert_2; [split; reflexivity|].
    apply map_Forall_insert_2; [split; reflexivity|].
    apply map_Forall_empty. }
  destruct (@get_stats_answers Toy.toy ["2025-01-15"; "2025-01-14"]%string _ Hs)
    as (r & Hr & _ & Hrows).
  exists r. split; [exact Hr | exact Hrows].
Defined.

(** ** The other drafts *)

Lemma foldl_add_lengths (arrays : list (list byte)) : forall n : nat,
  foldl (fun sum arr => (sum + length arr)%nat) n arrays
  = (n + length (concat arrays))%nat.
Proof.
  induction arrays as [|arr rest IH]; intros n; simpl.
  - lia.
  - rewrite IH, length_app. lia.
Qed.

Lemma concat_loop_fills (arrays : list (list byte)) : forall (pre zs : list byte),
  length zs = length (concat arrays) ->
  concat_loop arrays (pre ++ zs) (length pre) = Some (pre ++ concat arrays).
Proof.
  induction arrays as [|arr rest IH]; intros pre zs Hlen; simpl in *.
  - destruct zs; [reflexivity | discriminate].
  - rewrite length_app in Hlen. unfold typed_array_set.
    destruct (Nat.leb_spec (length pre + length arr) (length (pre ++ zs)))
      as [_|Hbad]; [|rewrite length_app in Hbad; lia].
    rewrite take_app_length.
    replace (drop (length pre + length arr) (pre ++ zs)) with (drop (length arr) zs)
      by (rewrite drop_app_add'; [reflexivity | lia]).
    replace (pre ++ arr ++ drop (length arr) zs)
      with ((pre ++ arr) ++ drop (length arr) zs) by now rewrite <- app_assoc.
    replace (length pre + length arr)%nat with (length (pre ++ arr))
      by now rewrite length_app.
    rewrite IH by (rewrite length_drop; lia).
    now rewrite <- app_assoc.
Qed.

(** X18: [concatBytes], which allocates the total length and copies each
    array at its running offset, never throws and returns the arrays one
    after the other. *)
Theorem concatBytes_is_concatenation (arrays : list (list byte)) :
  concatBytes arrays = Some (concat arrays).
Proof.
  unfold concatBytes. cbv zeta. rewrite foldl_add_lengths. simpl.
  apply (concat_loop_fills arrays []). apply length_replicate.
Qed.

Lemma customHllUpdate_again `{lib : Library} (h h1 : HLL) (e : element) :
  customHllUpdate h e = Some h1 -> customHllUpdate h1 e = Some h1.
Proof.
  destruct (customHllUpdate_digest e) as (v & Hv & Hrange).
  unfold customHllUpdate. rewrite Hv. cbv zeta.
  intros Hh1. inversion Hh1; subst; clear Hh1.
  cbn [_registers _nbBytesPerHash set_registers].
  set (i := registerIndex (_nbBytesPerHash h) v).
  assert (Hi : 0 <= i) by (apply registerIndex_nonneg; lia).
  rewrite (js_get_in _ i _ Hi (js_set_lookup_same _ _ _)).
  now rewrite js_set_twice, Math_max_absorb.
Qed.

(** X19: in the minimal draft the [known] flag of an answered request is
    the filter's answer before the key is added, and both files hold what
    is in memory afterwards.  Provided an added key tests positive in the
    filter, repeating the request reports [known = true] with the same
    count and leaves the estimator as the first request left it. *)
Theorem min_ingest_repeat `{lib : Library} (pub : option string) (s s1 : MinStore)
    (total : Q) (known : bool) :
  (forall b x, bloom_has (bloom_add b x) x = true) ->
  min_ingest pub s = (MinOk total known, s1) ->
  known = bloom_has (min_seenAll s) (field pub) /\
  min_allTime_json s1 = Some (min_allTime s1) /\
  min_seenAll_json s1 = Some (min_seenAll s1) /\
  exists s2,
    min_ingest pub s1 = (MinOk total true, s2) /\
    min_allTime s2 = min_allTime s1.
Proof.
  intros Hlaw Hrun. unfold min_ingest in *.
  destruct (negb (truthy pub)) eqn:Hp; [discriminate|].
  destruct (customHllUpdate (min_allTime s) (EStr (field pub))) as [all'|] eqn:Hup;
    [|discriminate].
  inversion Hrun; subst; clear Hrun. cbn [min_allTime min_seenAll
    min_allTime_json min_seenAll_json].
  repeat split.
  rewrite (customHllUpdate_again _ _ _ Hup), Hlaw.
  eexists. repeat split.
Qed.

Lemma min_ingest_repeat_witness :
  let run := min_ingest (lib := Toy.toy) (Some "key-1")
               (mkMinStore (lib := Toy.toy) (HyperLogLog_new HLL_REGISTERS)
                  (bloom_new (Library := Toy.toy)) None None) in
  run.1 = MinOk 1 false /\
  exists s2, min_ingest (lib := Toy.toy) (Some "key-1") run.2 = (MinOk 1 true, s2) /\
             min_allTime s2 = min_allTime run.2.
Proof.
  intros run.
  assert (H1 : run.1 = MinOk 1 false) by (vm_compute; reflexivity).
  split; [exact H1|].
  assert (Hrun : run = (MinOk 1 false, run.2))
    by (rewrite <- H1; apply surjective_pairing).
  destruct (@min_ingest_repeat Toy.toy _ _ _ _ _
              (fun b x => proj2 (bool_decide_eq_true _) (list_elem_of_here x b)) Hrun)
    as (_ & _ & _ & s2 & H2 & Hsame).
  exists s2. split; [exact H2 | exact Hsame].
Defined.



Section HmacFacts.
Context `{hlib : HmacLibrary}.

Lemma hmac_updates_initDay (day storedId : string) (st : Stats) :
  exists st', hmac_updates day storedId (initDay day st) = Some st'.
Proof.
  unfold hmac_updates, initDay.
  destruct (st_daily st !! day) as [ds|] eqn:Hd.
  - rewrite Hd. simpl. eauto.
  - simpl. rewrite lookup_insert_eq. simpl. eauto.
Qed.

End HmacFacts.

(** X21: the HMAC draft fails closed.  Whatever error it answers (400 or
    500), the statistics are unchanged and no save is queued; a public key
    or signature that is not valid hex makes [hexToBytes] throw and is
    answered 500; only a success changes the statistics, and it queues
    exactly one save. *)
Theorem hmac_ingest_fails_closed `{hlib : HmacLibrary} (now : Z) (day : string)
    (req : HmacRequest) (s : HmacStore) :
  match (hmac_ingest now day req s).1 with
  | HmacError status _ =>
      (hmac_ingest now day req s).2 = s /\ (status = 400 \/ status = 500)
  | HmacOk d =>
      d = day /\ h_saves (hmac_ingest now day req s).2 = S (h_saves s) /\
      hmac_missing req = false /\
      Z.abs (now - default 0 (h_ts req)) <= TIMESTAMP_WINDOW /\
      is_Some (hexToBytes (field (h_pub req))) /\
      is_Some (hexToBytes (field (h_sig req)))
  end.
Proof.
  unfold hmac_ingest. cbv zeta.
  destruct (hmac_missing req); [simpl; auto|].
  destruct (Z.gtb_spec (Z.abs (now - default 0 (h_ts req))) TIMESTAMP_WINDOW);
    [simpl; auto|].
  destruct (hexToBytes (field (h_pub req))) as [pubBytes|]; [|simpl; auto].
  destruct (hexToBytes (field (h_sig req))) as [sigBytes|]; [|simpl; auto].
  destruct (concatBytes _) as [message|]; [|simpl; auto].
  destruct (ed25519_verify sigBytes message pubBytes) as [[|]|]; [|simpl; auto..].
  destruct (deriveStoredId _) as [storedId|]; [|simpl; auto].
  destruct (hmac_updates_initDay day storedId (h_stats s)) as [st' ->].
  simpl. repeat split; eauto; lia.
Qed.

(** X22: the HMAC draft keeps no record of nonces: a request that was
    accepted is accepted again whenever its timestamp is still within the
    window, and each acceptance queues another save. *)
Theorem hmac_ingest_accepts_replay `{hlib : HmacLibrary} (now now2 : Z)
    (day day2 : string) (req : HmacRequest) (s s1 : HmacStore) :
  hmac_ingest now day req s = (HmacOk day, s1) ->
  Z.abs (now2 - default 0 (h_ts req)) <= TIMESTAMP_WINDOW ->
  exists s2,
    hmac_ingest now2 day2 req s1 = (HmacOk day2, s2) /\
    h_saves s2 = S (S (h_saves s)).
Proof.
  unfold hmac_ingest. cbv zeta. intros Hrun Hfresh.
  destruct (hmac_missing req); [discriminate|].
  destruct (Z.gtb_spec (Z.abs (now - default 0 (h_ts req))) TIMESTAMP_WINDOW);
    [discriminate|].
  destruct (Z.gtb_spec (Z.abs (now2 - default 0 (h_ts req))) TIMESTAMP_WINDOW); [lia|].
  destruct (hexToBytes (field (h_pub req))) as [pubBytes|]; [|discriminate].
  destruct (hexToBytes (field (h_sig req))) as [sigBytes|]; [|discriminate].
  destruct (concatBytes _) as [message|]; [|discriminate].
  destruct (ed25519_verify sigBytes message pubBytes) as [[|]|]; try discriminate.
  destruct (deriveStoredId _) as [storedId|]; [|discriminate].
  destruct (hmac_updates day storedId (initDay day (h_stats s))) as [st'|];
    [|discriminate].
  inversion Hrun; subst; clear Hrun. cbn [h_stats h_saves].
  destruct (hmac_updates_initDay day2 storedId st') as [st2 ->].
  eexists. split; reflexivity.
Qed.

Lemma hmac_ingest_accepts_replay_witness :
  let run := hmac_ingest (hlib := ToyHmac.toy_hmac) 1000 "2025-01-15"
               ToyHmac.signed ToyHmac.stats0 in
  run.1 = HmacOk "2025-01-15" /\
  exists s2,
    hmac_ingest (hlib := ToyHmac.toy_hmac) 1100 "2025-01-15" ToyHmac.signed run.2
    = (HmacOk "2025-01-15", s2) /\ h_saves s2 = 2%nat.
Proof.
  intros run.
  assert (H1 : run.1 = HmacOk "2025-01-15") by (vm_compute; reflexivity).
  split; [exact H1|].
  assert (Hrun : run = (HmacOk "2025-01-15", run.2))
    by (rewrite <- H1; apply surjective_pairing).
  apply (@hmac_ingest_accepts_replay Toy.toy ToyHmac.toy_hmac 1000 1100
           "2025-01-15"%string "2025-01-15"%string _ _ _ Hrun).
  vm_compute. discriminate.
Defined.

(** ** Deferred aggregation and the estimate of returning users *)

(** An addition to a well-shaped estimator leaves a register with a rank of
    at least 1. *)
Lemma customHllUpdate_leaves_a_rank `{lib : Library} (h h' : HLL) (e : element) :
  hll_ok HLL_REGISTERS h = true -> customHllUpdate h e = Some h' ->
  exists (i : nat) (z : Z),
    (i < Z.to_nat HLL_REGISTERS)%nat /\ _registers h' !! i = Some (Num z) /\ 1 <= z.
Proof.
  intros Hok Hup.
  destruct (customHllUpdate_keeps_ok HLL_REGISTERS h e)
    as (v & h'' & Hv & _ & Hidx & Hrho & _ & _); try reflexivity; try assumption.
  unfold customHllUpdate in Hup. rewrite Hv in Hup. cbv zeta in Hup.
  inversion Hup; subst h'; clear Hup. cbn [_registers set_registers].
  set (i := registerIndex (_nbBytesPerHash h) v) in *.
  set (r := rho (_nbBytesPerHash h) v) in *.
  pose proof Hok as Hok'.
  apply hll_ok_spec in Hok' as (_ & _ & Hlen & Hregs).
  destruct (lookup_lt_is_Some_2 (_registers h) (Z.to_nat i)) as [old Hold]; [lia|].
  rewrite Forall_lookup in Hregs. pose proof (Hregs _ _ Hold) as Hreg.
  apply reg_ok_spec in Hreg as (x & -> & Hx).
  rewrite (js_get_in _ _ _ (proj1 Hidx) Hold). cbn [Math_max].
  exists (Z.to_nat i), (Z.max x r). split; [lia|].
  split; [apply js_set_lookup_same | lia].
Qed.

(** X23: the aggregates miss the day.  After an accepted ping on a store
    whose estimators have the constructor's shape and whose week and month
    have no file yet, the deferred [updateAggregates] queued for the day
    runs without an exception, and the week and month files it creates
    hold the empty estimator: they do not dominate the day's estimator
    that the ping has just saved, which holds a rank of at least 1. *)
Theorem aggregates_miss_the_day `{lib : Library} (now : Z) (dk : string)
    (req : Request) (s s' : Store) (date : string) (newUser : bool) (dau : Q)
    (t : list Step) :
  store_ok s ->
  weekly (disk s) !! getWeekKey dk = None ->
  monthly (disk s) !! getMonthKey dk = None ->
  post_ingest now dk req s = (Accepted date newUser dau, s', t) ->
  last (immediates s') = Some dk /\
  exists d',
    updateAggregates dk (disk s') = Some d' /\
    weekly d' !! getWeekKey dk = Some (HyperLogLog_new HLL_REGISTERS) /\
    monthly d' !! getMonthKey dk = Some (HyperLogLog_new HLL_REGISTERS) /\
    ~ dominated (hll (getDailyData dk (disk s'))) (HyperLogLog_new HLL_REGISTERS).
Proof.
  intros Hs Hweek Hmonth Hrun.
  pose proof Hs as [_ Hd].
  destruct (post_ingest_case now dk req s) as
    [?|? ?|? ? ?|? ? ? ?|all' dh nh _ _ _ _ _ Hday _]; try discriminate Hrun.
  inversion Hrun. subst date. clear Hrun.
  split; [apply last_snoc|].
  destruct (getDailyData_ok dk (disk s) Hd) as [Hh _].
  pose proof (customHllUpdate_ok _ _ _ Hh Hday) as Hdh.
  assert (Hget : hll (getDailyData dk (disk (accepted_store now dk req s all' dh nh))) = dh).
  { unfold accepted_store, getDailyData, save_all_bf, save_all_hll, saveDailyData.
    cbn [disk daily]. now rewrite lookup_insert_eq. }
  set (s1 := accepted_store now dk req s all' dh nh) in *.
  assert (Hw1 : weekly (disk s1) !! getWeekKey dk = None) by exact Hweek.
  assert (Hm1 : monthly (disk s1) !! getMonthKey dk = None) by exact Hmonth.
  clearbody s1. rewrite Hget.
  destruct (merge_into_fresh dh Hdh) as [u Hu].
  unfold updateAggregates. cbv zeta. rewrite Hget, Hw1.
  cbn [loadHLL from_option id]. rewrite Hu.
  cbn [monthly weekly daily all_hll_json all_bf_json].
  rewrite Hm1. cbn [loadHLL from_option id]. rewrite Hu.
  eexists. split; [reflexivity|]. cbn [weekly monthly].
  rewrite !lookup_insert_eq. split; [reflexivity|]. split; [reflexivity|].
  intros Hdom.
  destruct (customHllUpdate_leaves_a_rank _ _ _ Hh Hday) as (i & z & Hi & Hz & Hz1).
  destruct (Hdom i z Hz) as (y & Hy & Hzy).
  unfold HyperLogLog_new in Hy. cbn [_registers] in Hy.
  apply lookup_replicate in Hy as [Hy _]. inversion Hy; subst y. lia.
Qed.

Lemma aggregates_miss_the_day_witness :
  exists s' t d',
    post_ingest (lib := Toy.toy) 1000 "2025-01-15" (Toy.ping "abc" "1000") Toy.store0
    = (Accepted "2025-01-15" true 1, s', t) /\
    updateAggregates (lib := Toy.toy) "2025-01-15" (disk s') = Some d' /\
    weekly d' !! "2025-01-15"%string = Some (HyperLogLog_new HLL_REGISTERS) /\
    ~ dominated (hll (getDailyData "2025-01-15" (disk s'))) (HyperLogLog_new HLL_REGISTERS).
Proof.
  destruct (post_ingest (lib := Toy.toy) 1000 "2025-01-15" (Toy.ping "abc" "1000")
              Toy.store0) as [[r s1] t1] eqn:Hrun.
  assert (H1 : r = Accepted "2025-01-15" true 1).
  { change r with (r, s1, t1).1.1. rewrite <- Hrun. vm_compute. reflexivity. }
  subst r. exists s1, t1.
  assert (H0 : store_ok (lib := Toy.toy) Toy.store0).
  { split; [reflexivity | apply map_Forall_empty]. }
  destruct (@aggregates_miss_the_day Toy.toy _ _ _ _ _ _ _ _ _ H0 eq_refl eq_refl Hrun)
    as (_ & d' & Hup & Hw & _ & Hnot).
  exists d'. split; [reflexivity|]. split; [exact Hup|]. split; [exact Hw | exact Hnot].
Defined.

Lemma Math_round_mono (x y : Q) : (x <= y)%Q -> Math_round x <= Math_round y.
Proof.
  intros Hxy. unfold Math_round. apply Qfloor_resp_le.
  apply Qplus_le_compat; [assumption | apply Qle_refl].
Qed.

(** X24: when the estimate of an empty estimator is 0 and the estimates of
    the two days are not negative, [calcRetention] never reports fewer
    returned users than the cohort holds, and with a positive cohort the
    rate is at least 100: the size it subtracts for the union is that of
    the estimator it created empty. *)
Theorem calcRetention_at_least_the_cohort `{lib : Library} (files : list string)
    (d : Disk) (cohortIdx returnIdx : Z) (cohortDay returnDay : string) :
  js_nth files cohortIdx = Some cohortDay ->
  js_nth files returnIdx = Some returnDay ->
  let A := hll (getDailyData cohortDay d) in
  let B := hll (getDailyData returnDay d) in
  hll_ok HLL_REGISTERS A = true ->
  hll_ok HLL_REGISTERS B = true ->
  (count (HyperLogLog_new HLL_REGISTERS) == 0)%Q ->
  (0 <= count A)%Q -> (0 <= count B)%Q ->
  exists r : RetentionRecord,
    calcRetention files d cohortIdx returnIdx = Some (Some r) /\
    returnedUsers r = Math_round (count A + count B) /\
    cohortSize r <= returnedUsers r /\
    ((0 < count A)%Q -> (100 <= retentionRate r)%Q).
Proof.
  intros Hc Hr A B HA HB Hempty Ha Hb.
  rewrite (calcRetention_value files d cohortIdx returnIdx cohortDay returnDay)
    by assumption.
  cbv zeta. fold A B.
  set (raw := (count A + count B - count (HyperLogLog_new HLL_REGISTERS))%Q).
  assert (Hraw : (raw == count A + count B)%Q).
  { unfold raw. rewrite Hempty. ring. }
  assert (Hpos : (0 <= raw)%Q).
  { rewrite Hraw. rewrite <- (Qplus_0_r 0). now apply Qplus_le_compat. }
  assert (Hmax : Math_max_Q 0 raw = raw).
  { unfold Math_max_Q. apply Qle_bool_iff in Hpos. now rewrite Hpos. }
  rewrite Hmax.
  eexists. split; [reflexivity|].
  cbn [returnedUsers cohortSize retentionRate].
  assert (Hge : (count A <= raw)%Q).
  { rewrite Hraw. rewrite <- (Qplus_0_r (count A)) at 1.
    apply Qplus_le_compat; [apply Qle_refl | assumption]. }
  split.
  { unfold Math_round. apply Qfloor_comp. now rewrite Hraw. }
  split; [now apply Math_round_mono|].
  intros HposA.
  assert (Hgt : Qgtb (count A) 0 = true) by now apply Qgtb_true.
  rewrite Hgt.
  assert (Hrate : (100 <= raw / count A * 100)%Q).
  { apply Qle_trans with (1 * 100)%Q; [discriminate|].
    apply Qmult_le_compat_r; [|discriminate].
    apply Qle_shift_div_l; [assumption|]. now rewrite Qmult_1_l. }
  assert (H100 : 10000 <= Math_round (raw / count A * 100 * 100)%Q).
  { change 10000 with (Math_round (100 * 100)%Q). apply Math_round_mono.
    apply Qmult_le_compat_r; [assumption | discriminate]. }
  apply Qle_trans with (inject_Z 10000 / 100)%Q; [discriminate|].
  apply Qmult_le_compat_r; [|discriminate].
  rewrite <- Zle_Qle. exact H100.
Qed.

Lemma calcRetention_at_least_the_cohort_witness :
  exists r : RetentionRecord,
    calcRetention (lib := Toy.toy) ["2025-01-15"; "2025-01-14"]%string Toy.twoDays 1 0
    = Some (Some r) /\
    returnedUsers r = 3 /\ cohortSize r <= returnedUsers r /\
    (100 <= retentionRate r)%Q.
Proof.
  destruct (@calcRetention_at_least_the_cohort Toy.toy ["2025-01-15"; "2025-01-14"]%string
              Toy.twoDays 1 0 "2025-01-14"%string "2025-01-15"%string
              eq_refl eq_refl eq_refl eq_refl)
    as (r & Hr & Hret & Hle & Hrate).
  - vm_compute. reflexivity.
  - vm_compute. discriminate.
  - vm_compute. discriminate.
  - exists r. split; [exact Hr|]. split.
    + rewrite Hret. vm_compute. reflexivity.
    + split; [exact Hle|]. apply Hrate. vm_compute. reflexivity.
Defined.
